(** * Route guide server: a shallow embedding of [route_guide_server.js]

    The four request handlers of the server ([getFeature], [listFeatures],
    [recordRoute], [routeChat]) and the helpers they call ([checkFeature],
    [getDistance]) are translated function by function.

    - Coordinates are the decoded [int32] fields of the [Point] message,
      kept as [Z].
    - JavaScript numbers that are not integers by construction (the running
      distance of [recordRoute], everything inside [getDistance]) are IEEE
      binary64 values, taken from the standard library's [spec_float].
    - The module-level variables [feature_list] and [route_notes] are passed
      explicitly; [route_notes] is a JavaScript object used as a map and is
      a [gmap] from property names to arrays.
    - Objects that [routeChat] shares between the registry and the output
      stream live in an explicit object store, so that the copy made by
      [JSON.parse(JSON.stringify(note))] is visible as a fresh object. *)

From Stdlib Require Import ZArith List String Bool Lia.
From Stdlib Require Import Floats.SpecFloat.
From stdpp Require Import gmap strings list pretty.

Open Scope Z_scope.

(** ** JavaScript numbers *)

Module Number.

Definition number := spec_float.

Definition prec : Z := 53.
Definition emax : Z := 1024.

Definition add : number -> number -> number := SFadd prec emax.
Definition sub : number -> number -> number := SFsub prec emax.
Definition mul : number -> number -> number := SFmul prec emax.
Definition div : number -> number -> number := SFdiv prec emax.

(** An integer literal, or an integer field read as a number. *)
Definition of_Z (z : Z) : number := binary_normalize prec emax z 0 false.

Definition zero : number := S754_zero false.

(** The integer part of a finite number, rounded toward zero. *)
Definition truncate (x : number) : Z :=
  match x with
  | S754_finite s m e => cond_Zopp s (Z.shiftl (Z.pos m) e)
  | _ => 0
  end.

(** [ToInt32] of ECMAScript: NaN, the infinities and the zeros give 0;
    any other number is truncated and reduced modulo 2^32 into
    [-2^31, 2^31). *)
Definition ToInt32 (x : number) : Z :=
  let int32bit := (truncate x) mod 2 ^ 32 in
  if int32bit >=? 2 ^ 31 then int32bit - 2 ^ 32 else int32bit.

(** [x | 0] *)
Definition bitor_0 (x : number) : Z := ToInt32 x.

End Number.

Import Number.

(** ** The [Math] object

    ECMAScript leaves the results of [Math.sin], [Math.cos] and
    [Math.atan2] to the implementation, so they are the fields of an
    interface; [Math.PI] is the binary64 value closest to pi and
    [Math.sqrt] is the IEEE square root. *)

Record MathObject := {
  Math_sin : number -> number;
  Math_cos : number -> number;
  Math_atan2 : number -> number -> number
}.

Definition Math_PI : number := S754_finite false 7074237752028440 (-51).

Definition Math_sqrt : number -> number := SFsqrt prec emax.

(** ** Messages *)

(** [Point]: [latitude] and [longitude] in degrees times [COORD_FACTOR]. *)
Record Coordinate := { latitude : Z; longitude : Z }.

Record Feature := { name : string; location : Coordinate }.

Record Rectangle := { lo : Coordinate; hi : Coordinate }.

Record RouteSummary := {
  point_count : Z;
  feature_count : Z;
  distance : Z;
  elapsed_time : Z
}.

(** The content of a [RouteNote], as [JSON.stringify] prints it. *)
Record RouteNote := { note_location : Coordinate; message : string }.

(** A [Point] as it travels: proto3 lets either field be absent. *)
Record PointMessage := {
  wire_latitude : option Z;
  wire_longitude : option Z
}.

(** The package definition is loaded with [defaults: true]: a scalar field
    that is absent from the message is set to its default value, 0, on the
    object handed to the handler. *)
Definition decode_Point (m : PointMessage) : Coordinate :=
  {| latitude := default 0 (wire_latitude m);
     longitude := default 0 (wire_longitude m) |}.

Definition malformed (m : PointMessage) : Prop :=
  wire_latitude m = None \/ wire_longitude m = None.

(** ** Calls *)

(** The first argument of a response callback is [null] or an error object
    carrying a gRPC status code. *)
Record ServiceError := { code : Z; details : string }.

Definition INVALID_ARGUMENT : Z := 3.

(** [callback(err, value)] *)
Record callback_args (R : Type) := Callback { cb_error : option ServiceError; cb_value : R }.
Arguments Callback {R} _ _.
Arguments cb_error {R} _.
Arguments cb_value {R} _.

(** The writable side of a call: the responses written so far, oldest
    first, and whether [call.end()] was called. *)
Record Writable (A : Type) := { written : list A; ended : bool }.
Arguments written {A} _.
Arguments ended {A} _.

Definition call_new {A} : Writable A := {| written := []; ended := false |}.

Definition call_write {A} (call : Writable A) (x : A) : Writable A :=
  {| written := written call ++ [x]; ended := ended call |}.

Definition call_end {A} (call : Writable A) : Writable A :=
  {| written := written call; ended := true |}.

(** [_.each(collection, iteratee)] with an iteratee that never returns
    [false]: the iteratee runs on every element, first to last. *)
Definition lodash_each {A S} (collection : list A) (iteratee : S -> A -> S) (s : S) : S :=
  fold_left iteratee collection s.

(** ** [checkFeature] and [getFeature] *)

(** [feature.location.latitude === point.latitude &&
     feature.location.longitude === point.longitude] *)
Definition at_point (feature : Feature) (point : Coordinate) : bool :=
  (latitude (location feature) =? latitude point)
  && (longitude (location feature) =? longitude point).

Fixpoint checkFeature (feature_list : list Feature) (point : Coordinate) : Feature :=
  match feature_list with
  | [] => {| name := EmptyString; location := point |}
  | feature :: rest =>
      if at_point feature point then feature else checkFeature rest point
  end.

Definition getFeature (feature_list : list Feature) (request : Coordinate)
  : callback_args Feature :=
  Callback None (checkFeature feature_list request).

(** ** [listFeatures] *)

Definition listFeatures (feature_list : list Feature) (request : Rectangle)
  : Writable Feature :=
  let lo := lo request in
  let hi := hi request in
  let left := Z.min (longitude lo) (longitude hi) in
  let right := Z.max (longitude lo) (longitude hi) in
  let top := Z.max (latitude lo) (latitude hi) in
  let bottom := Z.min (latitude lo) (latitude hi) in
  let call :=
    lodash_each feature_list
      (fun call feature =>
         if String.eqb (name feature) EmptyString then call
         else if (longitude (location feature) >=? left)
                 && (longitude (location feature) <=? right)
                 && (latitude (location feature) >=? bottom)
                 && (latitude (location feature) <=? top)
              then call_write call feature
              else call)
      call_new in
  call_end call.

(** The region test in the words of the specification. *)
Definition inRegion (rect : Rectangle) (feature : Feature) : Prop :=
  name feature <> EmptyString
  /\ Z.min (longitude (lo rect)) (longitude (hi rect)) <= longitude (location feature)
  /\ longitude (location feature) <= Z.max (longitude (lo rect)) (longitude (hi rect))
  /\ Z.min (latitude (lo rect)) (latitude (hi rect)) <= latitude (location feature)
  /\ latitude (location feature) <= Z.max (latitude (lo rect)) (latitude (hi rect)).

#[global] Instance inRegion_dec rect feature : Decision (inRegion rect feature).
Proof. unfold inRegion. apply _. Defined.

Definition listInRegion (feature_list : list Feature) (rect : Rectangle) : list Feature :=
  filter (inRegion rect) feature_list.

(** ** [getDistance] *)

(** Modelled from the spec: [COORD_FACTOR] is read by [getDistance] and
    declared nowhere in the file; the specification fixes the scaling
    factor of coordinates at 10,000,000. *)
Definition COORD_FACTOR : number := of_Z 10000000.

Definition toRadians (num : number) : number :=
  div (mul num Math_PI) (of_Z 180).

Definition getDistance (Math : MathObject) (start end_ : Coordinate) : number :=
  let R := of_Z 6371000 in
  let lat1 := toRadians (div (of_Z (latitude start)) COORD_FACTOR) in
  let lat2 := toRadians (div (of_Z (latitude end_)) COORD_FACTOR) in
  let lon1 := toRadians (div (of_Z (longitude start)) COORD_FACTOR) in
  let lon2 := toRadians (div (of_Z (longitude end_)) COORD_FACTOR) in
  let deltalat := sub lat2 lat1 in
  let deltalon := sub lon2 lon1 in
  let a :=
    add (mul (Math_sin Math (div deltalat (of_Z 2)))
             (Math_sin Math (div deltalat (of_Z 2))))
        (mul (mul (mul (Math_cos Math lat1) (Math_cos Math lat2))
                  (Math_sin Math (div deltalon (of_Z 2))))
             (Math_sin Math (div deltalon (of_Z 2)))) in
  let c :=
    mul (of_Z 2)
        (Math_atan2 Math (Math_sqrt a) (Math_sqrt (sub (of_Z 1) a))) in
  mul R c.

(** A coordinate field in radians, as [getDistance] computes it. *)
Definition radians (raw : Z) : number := toRadians (div (of_Z raw) COORD_FACTOR).

(** Neither NaN nor an infinity. *)
Definition is_finite (x : number) : Prop :=
  match x with
  | S754_zero _ | S754_finite _ _ _ => True
  | _ => False
  end.

(** ** [process.hrtime] *)

(** A reading of the monotonic clock: [[seconds, nanoseconds]]. *)
Definition hrtime := (Z * Z)%type.

Definition hrtime_wf (t : hrtime) : Prop := 0 <= snd t < 1000000000.

(** The clock does not run backwards between two readings. *)
Definition hrtime_le (t1 t2 : hrtime) : Prop :=
  fst t1 < fst t2 \/ (fst t1 = fst t2 /\ snd t1 <= snd t2).

(** [process.hrtime(time)] when the clock reads [clock]: the reading
    itself, or its difference to an earlier reading [time]. *)
Definition process_hrtime (clock : hrtime) (time : option hrtime) : hrtime :=
  match time with
  | None => clock
  | Some (sec0, nsec0) =>
      let sec := fst clock - sec0 in
      let nsec := snd clock - nsec0 in
      if nsec <? 0 then (sec - 1, nsec + 1000000000) else (sec, nsec)
  end.

(** ** [recordRoute] *)

(** The variables that the two listeners of [recordRoute] close over. *)
Record recorder := {
  var_point_count : Z;
  var_feature_count : Z;
  var_distance : number;
  var_previous : option Coordinate
}.

Definition recorder_init : recorder :=
  {| var_point_count := 0;
     var_feature_count := 0;
     var_distance := zero;
     var_previous := None |}.

(** [call.on('data', function(point) ...)] *)
Definition recordRoute_data (Math : MathObject) (feature_list : list Feature)
    (r : recorder) (point : Coordinate) : recorder :=
  let point_count := var_point_count r + 1 in
  let feature_count :=
    if negb (String.eqb (name (checkFeature feature_list point)) EmptyString)
    then var_feature_count r + 1
    else var_feature_count r in
  let distance :=
    match var_previous r with
    | Some previous => add (var_distance r) (getDistance Math previous point)
    | None => var_distance r
    end in
  {| var_point_count := point_count;
     var_feature_count := feature_count;
     var_distance := distance;
     var_previous := Some point |}.

(** [call.on('end', function() ...)], the clock reading [clock] when it runs. *)
Definition recordRoute_end (start_time clock : hrtime) (r : recorder)
  : callback_args RouteSummary :=
  Callback None
    {| point_count := var_point_count r;
       feature_count := var_feature_count r;
       distance := bitor_0 (var_distance r);
       elapsed_time := fst (process_hrtime clock (Some start_time)) |}.

(** A whole call: the clock reads [clock0] when the handler starts and
    [clock1] when the request stream ends, after delivering [points]. *)
Definition recordRoute (Math : MathObject) (feature_list : list Feature)
    (clock0 clock1 : hrtime) (points : list Coordinate)
  : callback_args RouteSummary :=
  let start_time := process_hrtime clock0 None in
  recordRoute_end start_time clock1
    (fold_left (recordRoute_data Math feature_list) points recorder_init).

(** The same call seen from the wire. *)
Definition recordRoute_call (Math : MathObject) (feature_list : list Feature)
    (clock0 clock1 : hrtime) (messages : list PointMessage)
  : callback_args RouteSummary :=
  recordRoute Math feature_list clock0 clock1 (map decode_Point messages).

(** ** The object store of [routeChat] *)

(** An object is named by its address; the store is the list of all
    objects allocated so far, the address being the index. *)
Abbreviation addr := nat.

Inductive object :=
  | OPoint (lat lon : Z)
  | ONote (loc : addr) (msg : string).

Definition alloc (objects : list object) (o : object) : addr * list object :=
  (length objects, objects ++ [o]).

Definition read_point (objects : list object) (a : addr) : option Coordinate :=
  match objects !! a with
  | Some (OPoint lat lon) => Some {| latitude := lat; longitude := lon |}
  | _ => None
  end.

(** [JSON.stringify(note)]: the text is determined by the fields reached
    from [note], which is all that [RouteNote] records. *)
Definition JSON_stringify (objects : list object) (note : addr) : option RouteNote :=
  match objects !! note with
  | Some (ONote loc msg) =>
      match read_point objects loc with
      | Some point => Some {| note_location := point; message := msg |}
      | None => None
      end
  | _ => None
  end.

(** [JSON.parse(text)]: every object of the text is built anew. *)
Definition JSON_parse (objects : list object) (text : RouteNote) : addr * list object :=
  let '(loc, objects1) :=
    alloc objects
      (OPoint (latitude (note_location text)) (longitude (note_location text))) in
  alloc objects1 (ONote loc (message text)).

(** The transport builds the object of an incoming message the same way. *)
Definition decode_RouteNote (objects : list object) (msg : RouteNote) : addr * list object :=
  JSON_parse objects msg.

(** The state shared by all [routeChat] calls. *)
Record Registry := {
  objects : list object;
  route_notes : gmap string (list addr)
}.

(** Every note of the registry is a note object of the store with a point
    as its location. *)
Definition Registry_wf (g : Registry) : Prop :=
  forall (key : string) (notes : list addr) (a : addr),
    route_notes g !! key = Some notes -> a ∈ notes ->
    is_Some (JSON_stringify (objects g) a).

(** ** [routeChat] *)

Section RouteChat.

(** [pointKey] is called by [routeChat] and declared nowhere in the
    file: it is a parameter, a function from a point to a property name. *)
Variable pointKey : Coordinate -> string.

(** [call.on('data', function(note) ...)]: [call] is the stream of the
    call the listener belongs to, [note] the object just received. The
    result is [None] when [note] is not a note object of the store. *)
Definition routeChat_data (call : Writable addr) (note : addr) (g : Registry)
  : option (Writable addr * Registry) :=
  match objects g !! note with
  | Some (ONote loc _) =>
      match read_point (objects g) loc with
      | Some point =>
          let key := pointKey point in
          let '(call1, route_notes1) :=
            match route_notes g !! key with
            | Some previous =>
                (lodash_each previous call_write call, route_notes g)
            | None => (call, <[key := []]> (route_notes g))
            end in
          match JSON_stringify (objects g) note with
          | Some text =>
              let '(copy, objects1) := JSON_parse (objects g) text in
              Some (call1,
                    {| objects := objects1;
                       route_notes :=
                         <[key := default [] (route_notes1 !! key) ++ [copy]]>
                           route_notes1 |})
          | None => None
          end
      | None => None
      end
  | _ => None
  end.

(** A message arrives on a call: the transport builds its object and
    emits ['data']. *)
Definition routeChat_receive (call : Writable addr) (msg : RouteNote) (g : Registry)
  : option (Writable addr * Registry) :=
  let '(note, objects1) := decode_RouteNote (objects g) msg in
  routeChat_data call note
    {| objects := objects1; route_notes := route_notes g |}.

(** [call.on('end', function() { call.end(); })] *)
Definition routeChat_end (call : Writable addr) : Writable addr := call_end call.

(** One call served alone from its first message to the end of its
    request stream. *)
Fixpoint routeChat_messages (call : Writable addr) (msgs : list RouteNote)
    (g : Registry) : option (Writable addr * Registry) :=
  match msgs with
  | [] => Some (call, g)
  | msg :: rest =>
      match routeChat_receive call msg g with
      | Some (call1, g1) => routeChat_messages call1 rest g1
      | None => None
      end
  end.

Definition routeChat (msgs : list RouteNote) (g : Registry)
  : option (Writable addr * Registry) :=
  match routeChat_messages call_new msgs g with
  | Some (call, g1) => Some (routeChat_end call, g1)
  | None => None
  end.

(** *** Several calls in flight

    Listeners run to completion, one at a time: an execution of the
    server with several [routeChat] calls open is a sequence of ['data']
    events, each for one call, in the order the event loop delivers
    them. *)
Record System := {
  registry : Registry;
  calls : gmap nat (Writable addr)
}.

Definition stream_of (sys : System) (c : nat) : Writable addr :=
  default call_new (calls sys !! c).

Definition deliver (sys : System) (ev : nat * RouteNote) : option System :=
  let '(c, msg) := ev in
  match routeChat_receive (stream_of sys c) msg (registry sys) with
  | Some (call1, g1) =>
      Some {| registry := g1; calls := <[c := call1]> (calls sys) |}
  | None => None
  end.

Fixpoint run (sys : System) (events : list (nat * RouteNote)) : option System :=
  match events with
  | [] => Some sys
  | ev :: rest =>
      match deliver sys ev with
      | Some sys1 => run sys1 rest
      | None => None
      end
  end.

End RouteChat.

(** ** The server *)

(** The module-level state: [feature_list], assigned once when the
    database file is read, and the registry behind [route_notes]. *)
Record Server := {
  feature_list : list Feature;
  notes : Registry
}.

(** [recordRoute] as a step of the server: the response and the state the
    call leaves behind. Neither listener assigns to a module-level
    variable. *)
Definition recordRoute_handler (Math : MathObject) (srv : Server)
    (clock0 clock1 : hrtime) (messages : list PointMessage)
  : callback_args RouteSummary * Server :=
  (recordRoute_call Math (feature_list srv) clock0 clock1 messages, srv).

(** The distances of the segments of a route, in the order they are
    travelled. *)
Fixpoint legs_from (Math : MathObject) (previous : Coordinate)
    (points : list Coordinate) : list number :=
  match points with
  | [] => []
  | point :: rest => getDistance Math previous point :: legs_from Math point rest
  end.

Definition legs (Math : MathObject) (points : list Coordinate) : list number :=
  match points with
  | [] => []
  | point :: rest => legs_from Math point rest
  end.

(** The point is at a feature with a name: what [recordRoute] counts in
    [feature_count]. *)
Definition named (feature_list : list Feature) (point : Coordinate) : Prop :=
  name (checkFeature feature_list point) <> EmptyString.

(** The registry holds, under [key], a note that prints as [msg]. *)
Definition stored (g : Registry) (key : string) (msg : RouteNote) : Prop :=
  exists (notes : list addr) (a : addr),
    route_notes g !! key = Some notes
    /\ a ∈ notes
    /\ JSON_stringify (objects g) a = Some msg.

(** ** Sample data *)

(** A route along the equator that goes from longitude 0 to longitude 180
    degrees and back, [n] times, and ends where it started. *)
Definition origin : Coordinate := {| latitude := 0; longitude := 0 |}.
Definition antipode : Coordinate := {| latitude := 0; longitude := 1800000000 |}.

Fixpoint there_and_back (n : nat) : list Coordinate :=
  match n with
  | O => [origin]
  | S n' => origin :: antipode :: there_and_back n'
  end.

Definition one : number := of_Z 1.
Definition half_pi : number := S754_finite false 7074237752028440 (-52).

Definition same_number (x y : number) : bool :=
  match x, y with
  | S754_zero s1, S754_zero s2 => Bool.eqb s1 s2
  | S754_infinity s1, S754_infinity s2 => Bool.eqb s1 s2
  | S754_nan, S754_nan => true
  | S754_finite s1 m1 e1, S754_finite s2 m2 e2 =>
      Bool.eqb s1 s2 && (m1 =? m2)%positive && (e1 =? e2)
  | _, _ => false
  end.

(** The values of [Math.sin], [Math.cos] and [Math.atan2] at the arguments
    that [getDistance] meets on [there_and_back]; NaN everywhere else. *)
Definition equator_Math : MathObject :=
  {| Math_sin x :=
       if same_number x zero then zero
       else if same_number x half_pi then one
       else if same_number x (SFopp half_pi) then SFopp one
       else S754_nan;
     Math_cos x := if same_number x zero then one else S754_nan;
     Math_atan2 y x :=
       if same_number y one && same_number x zero then half_pi else S754_nan |}.

(** The length of one leg of [there_and_back], in metres. *)
Definition half_equator : number := mul (of_Z 6371000) (mul (of_Z 2) half_pi).

(** Two points that are nearly opposite on the globe, 8 degrees north on
    the Greenwich meridian and 8 degrees south on the date line, and a
    third whose latitude field is 188 degrees, half a turn from the
    first. *)
Definition north8 : Coordinate := {| latitude := 80000000; longitude := 0 |}.
Definition south8 : Coordinate :=
  {| latitude := -80000000; longitude := 1800000000 |}.
Definition over_pole : Coordinate := {| latitude := 1880000000; longitude := 0 |}.

(** 8 degrees and 188 degrees in radians as [getDistance] computes them,
    and the sine and cosine of these numbers rounded to the nearest
    number. *)
Definition lat8 : number := S754_finite false 5030569068109113 (-55).
Definition sin_lat8 : number := S754_finite false 5014239404989977 (-55).
Definition cos_lat8 : number := S754_finite false 8919541810762874 (-53).
Definition lat188 : number := S754_finite false 7388648318785260 (-51).
Definition cos_lat188 : number := S754_finite true 8919541810762873 (-53).

(** An engine for the examples with these points: the values of
    [axes_Math], and the sine and cosine at 8 and 188 degrees; NaN
    everywhere else. *)
Definition libm_Math : MathObject :=
  {| Math_sin x :=
       if same_number x zero || same_number x (SFopp zero) then x
       else if same_number x half_pi then one
       else if same_number x (SFopp half_pi) then SFopp one
       else if same_number x lat8 then sin_lat8
       else if same_number x (SFopp lat8) then SFopp sin_lat8
       else S754_nan;
     Math_cos x :=
       if same_number x zero then one
       else if same_number x lat8 || same_number x (SFopp lat8) then cos_lat8
       else if same_number x lat188 then cos_lat188
       else S754_nan;
     Math_atan2 y x :=
       if same_number y one && same_number x zero then half_pi
       else if same_number y zero && same_number x one then zero
       else S754_nan |}.

(** A key function to run [routeChat] with: the two fields in decimal,
    separated by a space. *)
Definition decimal_pointKey (point : Coordinate) : string :=
  pretty (latitude point) +:+ " " +:+ pretty (longitude point).

Definition empty_registry : Registry := {| objects := []; route_notes := ∅ |}.

Definition idle_system : System := {| registry := empty_registry; calls := ∅ |}.

Definition N1 : RouteNote :=
  {| note_location := {| latitude := 5; longitude := 5 |}; message := "first" |}.
Definition N2 : RouteNote :=
  {| note_location := {| latitude := 5; longitude := 5 |}; message := "second" |}.

(** The registry after [N1] has been received and stored: the object
    built by the transport at addresses 0 and 1, the copy at 2 and 3. *)
Definition registry_after_N1 : Registry :=
  {| objects := [OPoint 5 5; ONote 0 "first"; OPoint 5 5; ONote 2 "first"];
     route_notes := {[ "5 5"%string := [3%nat] ]} |}.

Definition feature_A : Feature :=
  {| name := "A"; location := {| latitude := 0; longitude := 0 |} |}.

(** ** Streams and registry read by value *)

(** What a reader finds at each of the addresses [addrs]: the text of the
    note there, or [None] where the store holds no note. *)
Definition texts (objects : list object) (addrs : list addr) : list (option RouteNote) :=
  JSON_stringify objects <$> addrs.

(** The messages of [msgs] whose location has the key [key]. *)
Definition at_key (pointKey : Coordinate -> string) (key : string)
    (msgs : list RouteNote) : list RouteNote :=
  filter (fun msg => pointKey (note_location msg) = key) msgs.

(** The notes that call [c] is sent while the server handles [events],
    when the messages [seen] were handled before: for each message of [c],
    the earlier messages with the same key, oldest first. *)
Fixpoint replies_to (pointKey : Coordinate -> string) (c : nat)
    (seen : list RouteNote) (events : list (nat * RouteNote)) : list RouteNote :=
  match events with
  | [] => []
  | (c', msg) :: rest =>
      (if decide (c' = c)
       then at_key pointKey (pointKey (note_location msg)) seen
       else [])
      ++ replies_to pointKey c (seen ++ [msg]) rest
  end.

(** The messages that call [c] sends in [events]. *)
Definition sent_by (c : nat) (events : list (nat * RouteNote)) : list RouteNote :=
  snd <$> filter (fun ev => fst ev = c) events.

(** The registry holds, key by key, the messages [seen], and every call
    [c] has been sent [acc c]. *)
Definition reads_as (pointKey : Coordinate -> string) (sys : System)
    (seen : list RouteNote) (acc : nat -> list RouteNote) : Prop :=
  (forall key,
      texts (objects (registry sys))
        (default [] (route_notes (registry sys) !! key))
      = Some <$> at_key pointKey key seen)
  /\ (forall c,
         texts (objects (registry sys)) (written (stream_of sys c))
         = Some <$> acc c).

(** A clock reading in nanoseconds. *)
Definition nanoseconds (t : hrtime) : Z := fst t * 1000000000 + snd t.

(** An engine for the examples: the sine is exact at zero and at a quarter
    turn either way, the cosine at zero, the arc tangent on the two axes
    it is asked about; NaN everywhere else. *)
Definition axes_Math : MathObject :=
  {| Math_sin x :=
       if same_number x zero || same_number x (SFopp zero) then x
       else if same_number x half_pi then one
       else if same_number x (SFopp half_pi) then SFopp one
       else S754_nan;
     Math_cos x := if same_number x zero then one else S754_nan;
     Math_atan2 y x :=
       if same_number y one && same_number x zero then half_pi
       else if same_number y zero && same_number x one then zero
       else S754_nan |}.

(** * Properties *)

(** ** Feature lookup *)

Lemma at_point_true (feature : Feature) (point : Coordinate) :
  at_point feature point = true <-> location feature = point.
Proof.
  unfold at_point. rewrite andb_true_iff, !Z.eqb_eq.
  destruct feature as [n [la lo]], point as [pla plo]; simpl.
  split; [intros [-> ->]; reflexivity | intros H; inversion H; auto].
Qed.

Lemma at_point_false (feature : Feature) (point : Coordinate) :
  at_point feature point = false <-> location feature <> point.
Proof.
  rewrite <- at_point_true. destruct (at_point feature point); split; congruence.
Qed.

(** C1. [checkFeature] (and [getFeature], which hands its result to the
    callback with a null error) returns the first feature of the
    collection, in order, whose location equals the point on both fields;
    when there is none it returns the feature with the empty name and the
    queried point as location. *)
Theorem checkFeature_first_match (feature_list : list Feature) (point : Coordinate) :
  getFeature feature_list point = Callback None (checkFeature feature_list point)
  /\ ((exists (i : nat) (feature : Feature),
          feature_list !! i = Some feature
          /\ location feature = point
          /\ (forall (j : nat) (earlier : Feature),
                 (j < i)%nat -> feature_list !! j = Some earlier ->
                 location earlier <> point)
          /\ checkFeature feature_list point = feature)
      \/ ((forall feature, feature ∈ feature_list -> location feature <> point)
          /\ checkFeature feature_list point
             = {| name := EmptyString; location := point |})).
Proof.
  split; [reflexivity |].
  induction feature_list as [| f rest IH]; simpl.
  - right. split; [| reflexivity]. intros feature Hin. inversion Hin.
  - destruct (at_point f point) eqn:Hat.
    + left. exists 0%nat, f. apply at_point_true in Hat.
      repeat split; auto. intros j earlier Hj. lia.
    + apply at_point_false in Hat.
      destruct IH as [(i & feature & Hi & Hloc & Hfirst & Hres) | [Hnone Hres]].
      * left. exists (S i), feature. repeat split; auto.
        intros [| j] earlier Hj Hlook; simpl in Hlook.
        -- inversion Hlook; subst; assumption.
        -- apply (Hfirst j); [lia | assumption].
      * right. split; [| assumption].
        intros feature Hin. apply elem_of_cons in Hin as [-> | Hin]; auto.
Qed.

(** ** Region listing *)

Lemma listFeatures_step_written (rect : Rectangle) (features : list Feature)
    (call : Writable Feature) :
  let step := fun (call : Writable Feature) (feature : Feature) =>
    if String.eqb (name feature) EmptyString then call
    else if (longitude (location feature)
               >=? Z.min (longitude (lo rect)) (longitude (hi rect)))
            && (longitude (location feature)
                  <=? Z.max (longitude (lo rect)) (longitude (hi rect)))
            && (latitude (location feature)
                  >=? Z.min (latitude (lo rect)) (latitude (hi rect)))
            && (latitude (location feature)
                  <=? Z.max (latitude (lo rect)) (latitude (hi rect)))
         then call_write call feature
         else call in
  written (fold_left step features call) = written call ++ listInRegion features rect
  /\ ended (fold_left step features call) = ended call.
Proof.
  intros step. revert call.
  induction features as [| f rest IH]; intros call; simpl.
  - rewrite app_nil_r. auto.
  - destruct (IH (step call f)) as [Hw He]. rewrite Hw, He. clear IH Hw He.
    unfold listInRegion. rewrite filter_cons. unfold step.
    destruct (String.eqb (name f) EmptyString) eqn:Hname.
    + apply String.eqb_eq in Hname.
      rewrite decide_False; [auto |]. unfold inRegion. tauto.
    + apply String.eqb_neq in Hname.
      match goal with |- context [if ?b then _ else _] => destruct b eqn:Hb end.
      * rewrite decide_True.
        -- simpl. rewrite <- app_assoc. auto.
        -- rewrite !Z.geb_leb, !andb_true_iff, !Z.leb_le in Hb.
           unfold inRegion. tauto.
      * rewrite decide_False; [auto |].
        unfold inRegion. intros (_ & H1 & H2 & H3 & H4).
        rewrite !Z.geb_leb, !andb_false_iff, !Z.leb_gt in Hb. lia.
Qed.

(** C6. [listFeatures] writes exactly the features that have a non-empty
    name and lie in the rectangle, all four bounds included, in the order
    of the collection, and then ends the stream. *)
Theorem listFeatures_in_region (feature_list : list Feature) (rect : Rectangle) :
  written (listFeatures feature_list rect) = listInRegion feature_list rect
  /\ ended (listFeatures feature_list rect) = true
  /\ (forall feature,
         feature ∈ written (listFeatures feature_list rect)
         <-> feature ∈ feature_list
             /\ name feature <> EmptyString
             /\ Z.min (longitude (lo rect)) (longitude (hi rect))
                <= longitude (location feature)
                <= Z.max (longitude (lo rect)) (longitude (hi rect))
             /\ Z.min (latitude (lo rect)) (latitude (hi rect))
                <= latitude (location feature)
                <= Z.max (latitude (lo rect)) (latitude (hi rect))).
Proof.
  assert (Hw : written (listFeatures feature_list rect)
               = listInRegion feature_list rect).
  { unfold listFeatures, lodash_each. simpl.
    destruct (listFeatures_step_written rect feature_list call_new) as [Hw _].
    simpl in Hw. exact Hw. }
  split; [exact Hw |]. split; [reflexivity |].
  intros feature. rewrite Hw. unfold listInRegion.
  rewrite list_elem_of_filter. unfold inRegion. tauto.
Qed.

(** C7. Swapping the two corners of the rectangle does not change what
    [listFeatures] writes. *)
Theorem listFeatures_swap_corners (feature_list : list Feature) (p q : Coordinate) :
  listFeatures feature_list {| lo := p; hi := q |}
  = listFeatures feature_list {| lo := q; hi := p |}.
Proof.
  unfold listFeatures. simpl.
  rewrite (Z.min_comm (longitude p)), (Z.max_comm (longitude p)),
    (Z.min_comm (latitude p)), (Z.max_comm (latitude p)).
  reflexivity.
Qed.

(** ** Distances

    What can be said of [getDistance] on every engine: the arithmetic
    around the calls to [Math] does not depend on the direction of travel.
    Whether the result is a number at all, and then not negative, is left
    to [Math.sin], [Math.cos] and [Math.atan2]: the argument of the square
    roots can round below 0 or above 1. *)

(** Rounding looks at the magnitude only; the sign is put on the result. *)
Lemma binary_round_aux_opp (s : bool) (m e : Z) (l : SpecFloat.location) :
  SFopp (binary_round_aux prec emax s m e l)
  = binary_round_aux prec emax (negb s) m e l.
Proof.
  unfold binary_round_aux.
  destruct (shr_fexp prec emax m e l) as [mrs' e'].
  destruct (shr_fexp prec emax _ e' loc_Exact) as [mrs'' e''].
  destruct (shr_m mrs''); simpl; auto.
  destruct (e'' <=? emax - prec); reflexivity.
Qed.

Lemma binary_round_opp (s : bool) (m : positive) (e : Z) :
  SFopp (binary_round prec emax s m e) = binary_round prec emax (negb s) m e.
Proof.
  unfold binary_round. destruct (shl_align m e _) as [mz ez].
  apply binary_round_aux_opp.
Qed.

Lemma number_mul_comm (x y : number) : mul x y = mul y x.
Proof.
  destruct x as [sx | sx | | sx mx ex], y as [sy | sy | | sy my ey];
    unfold mul; cbn [SFmul];
    try reflexivity; try (rewrite (xorb_comm sx sy); reflexivity).
  rewrite (xorb_comm sx sy), (Pos.mul_comm mx my), (Z.add_comm ex ey). reflexivity.
Qed.

Lemma number_mul_opp_r (x y : number) : mul x (SFopp y) = SFopp (mul x y).
Proof.
  destruct x as [sx | sx | | sx mx ex], y as [sy | sy | | sy my ey];
    unfold mul; cbn [SFmul SFopp];
    try reflexivity; try (destruct sx, sy; reflexivity).
  rewrite binary_round_aux_opp. destruct sx, sy; reflexivity.
Qed.

Lemma number_mul_opp_opp (x y : number) : mul (SFopp x) (SFopp y) = mul x y.
Proof.
  destruct x as [sx | sx | | sx mx ex], y as [sy | sy | | sy my ey];
    unfold mul; cbn [SFmul SFopp];
    try reflexivity; destruct sx, sy; reflexivity.
Qed.

Lemma number_div_opp_l (x y : number) : div (SFopp x) y = SFopp (div x y).
Proof.
  destruct x as [sx | sx | | sx mx ex], y as [sy | sy | | sy my ey];
    unfold div; cbn [SFdiv SFopp];
    try reflexivity; try (destruct sx, sy; reflexivity).
  destruct (SFdiv_core_binary prec emax (Z.pos mx) ex (Z.pos my) ey) as [[mz ez] lz].
  rewrite binary_round_aux_opp. destruct sx, sy; reflexivity.
Qed.

Lemma binary_normalize_opp (m e : Z) :
  m <> 0 ->
  binary_normalize prec emax (- m) e false
  = SFopp (binary_normalize prec emax m e false).
Proof.
  intros Hm. destruct m as [| p | p]; [congruence | |];
    cbn [binary_normalize Z.opp]; rewrite binary_round_opp; reflexivity.
Qed.

(** [y - x] is the opposite of [x - y], except that both are [+0] when
    the two are equal (and both NaN when one of them is). *)
Lemma number_sub_swap (x y : number) :
  sub y x = SFopp (sub x y) \/ sub y x = sub x y.
Proof.
  destruct x as [sx | sx | | sx mx ex], y as [sy | sy | | sy my ey];
    unfold sub; cbn [SFsub SFopp];
    try (left; reflexivity); try (right; reflexivity);
    try (destruct sx, sy; simpl; (left; reflexivity) || (right; reflexivity)).
  rewrite (Z.min_comm ey ex).
  set (a := cond_Zopp sx _). set (b := cond_Zopp sy _).
  destruct (Z.eq_dec (a - b) 0) as [H0 | Hne].
  - right. replace (b - a) with 0 by lia. rewrite H0. reflexivity.
  - left. replace (b - a) with (- (a - b)) by lia.
    apply binary_normalize_opp. exact Hne.
Qed.

Section Haversine.

Variable Math : MathObject.

Lemma half_angle_swap (x y c : number) :
  (forall z, Math_sin Math (SFopp z) = SFopp (Math_sin Math z)) ->
  mul (Math_sin Math (div (sub y x) (of_Z 2)))
      (Math_sin Math (div (sub y x) (of_Z 2)))
  = mul (Math_sin Math (div (sub x y) (of_Z 2)))
        (Math_sin Math (div (sub x y) (of_Z 2)))
  /\ mul (mul c (Math_sin Math (div (sub y x) (of_Z 2))))
         (Math_sin Math (div (sub y x) (of_Z 2)))
     = mul (mul c (Math_sin Math (div (sub x y) (of_Z 2))))
           (Math_sin Math (div (sub x y) (of_Z 2))).
Proof.
  intros Hodd. destruct (number_sub_swap x y) as [-> | ->]; [| auto].
  rewrite number_div_opp_l, Hodd, number_mul_opp_opp, (number_mul_opp_r c),
    number_mul_opp_opp.
  auto.
Qed.

(** X17. With a sine that is odd, as the engines' is, the distance from
    [start] to [end_] and the distance back are the same number. *)
Lemma getDistance_sym (start end_ : Coordinate) :
  (forall z, Math_sin Math (SFopp z) = SFopp (Math_sin Math z)) ->
  getDistance Math start end_ = getDistance Math end_ start.
Proof.
  intros Hodd. unfold getDistance. cbv zeta.
  set (lat1 := toRadians (div (of_Z (latitude start)) COORD_FACTOR)).
  set (lat2 := toRadians (div (of_Z (latitude end_)) COORD_FACTOR)).
  set (lon1 := toRadians (div (of_Z (longitude start)) COORD_FACTOR)).
  set (lon2 := toRadians (div (of_Z (longitude end_)) COORD_FACTOR)).
  destruct (half_angle_swap lat1 lat2 zero Hodd) as [-> _].
  destruct (half_angle_swap lon1 lon2
              (mul (Math_cos Math lat1) (Math_cos Math lat2)) Hodd) as [_ ->].
  rewrite (number_mul_comm (Math_cos Math lat1) (Math_cos Math lat2)).
  reflexivity.
Qed.

Lemma number_sub_diag (x : number) : is_finite x -> sub x x = zero.
Proof.
  destruct x as [s | s | | s m e]; cbn [is_finite]; intros H; try contradiction.
  - destruct s; reflexivity.
  - unfold sub. cbn [SFsub]. rewrite Z.sub_diag. reflexivity.
Qed.

Lemma number_mul_zero_zero (x : number) :
  is_finite x ->
  mul (mul x zero) zero = zero \/ mul (mul x zero) zero = S754_zero true.
Proof.
  destruct x as [s | s | | s m e]; cbn [is_finite]; intros H; try contradiction;
    destruct s; auto.
Qed.

(** X18. From a point to itself the distance is [+0], as soon as the sine
    and the arc tangent are exact at zero and no intermediate value leaves
    the finite numbers. *)
Lemma getDistance_same_point (point : Coordinate) :
  Math_sin Math zero = zero ->
  Math_atan2 Math zero one = zero ->
  is_finite (radians (latitude point)) ->
  is_finite (radians (longitude point)) ->
  is_finite (mul (Math_cos Math (radians (latitude point)))
              (Math_cos Math (radians (latitude point)))) ->
  getDistance Math point point = zero.
Proof.
  intros Hsin Hatan Hlat Hlon Hcos. unfold getDistance. cbv zeta.
  fold (radians (latitude point)). fold (radians (longitude point)).
  rewrite (number_sub_diag _ Hlat), (number_sub_diag _ Hlon).
  replace (div zero (of_Z 2)) with zero by (vm_compute; reflexivity).
  rewrite Hsin.
  destruct (number_mul_zero_zero _ Hcos) as [-> | ->];
    replace (Math_sqrt (add (mul zero zero) _)) with zero by (vm_compute; reflexivity);
    replace (Math_sqrt (sub (of_Z 1) (add (mul zero zero) _))) with one
      by (vm_compute; reflexivity);
    rewrite Hatan; vm_compute; reflexivity.
Qed.

End Haversine.

(** *** Two points nearly opposite on the globe *)

Section NearAntipode.

Variable Math : MathObject.

(** What the engine answers at the arguments involved: the sine and the
    cosine of 8 degrees rounded to the nearest number, the sine of a
    quarter turn, and NaN for the arc tangent of a NaN. *)
Hypothesis sin_8 : Math_sin Math lat8 = sin_lat8.
Hypothesis sin_minus_8 : Math_sin Math (SFopp lat8) = SFopp sin_lat8.
Hypothesis cos_8 : Math_cos Math lat8 = cos_lat8.
Hypothesis cos_minus_8 : Math_cos Math (SFopp lat8) = cos_lat8.
Hypothesis sin_quarter : Math_sin Math half_pi = one.
Hypothesis sin_minus_quarter : Math_sin Math (SFopp half_pi) = SFopp one.
Hypothesis atan2_of_nan : forall y, Math_atan2 Math y S754_nan = S754_nan.

Lemma getDistance_north8_south8 : getDistance Math north8 south8 = S754_nan.
Proof.
  unfold getDistance, north8, south8.
  cbn [latitude longitude].
  replace (toRadians (div (of_Z 80000000) COORD_FACTOR)) with lat8
    by (vm_compute; reflexivity).
  replace (toRadians (div (of_Z (-80000000)) COORD_FACTOR)) with (SFopp lat8)
    by (vm_compute; reflexivity).
  replace (toRadians (div (of_Z 0) COORD_FACTOR)) with zero
    by (vm_compute; reflexivity).
  replace (toRadians (div (of_Z 1800000000) COORD_FACTOR)) with Math_PI
    by (vm_compute; reflexivity).
  replace (div (sub (SFopp lat8) lat8) (of_Z 2)) with (SFopp lat8)
    by (vm_compute; reflexivity).
  replace (div (sub Math_PI zero) (of_Z 2)) with half_pi
    by (vm_compute; reflexivity).
  rewrite sin_minus_8, sin_quarter, cos_8, cos_minus_8.
  replace (Math_sqrt
             (sub (of_Z 1)
                (add (mul (SFopp sin_lat8) (SFopp sin_lat8))
                   (mul (mul (mul cos_lat8 cos_lat8) one) one))))
    with S754_nan by (vm_compute; reflexivity).
  rewrite atan2_of_nan. reflexivity.
Qed.

Lemma getDistance_south8_north8 : getDistance Math south8 north8 = S754_nan.
Proof.
  unfold getDistance, north8, south8.
  cbn [latitude longitude].
  replace (toRadians (div (of_Z 80000000) COORD_FACTOR)) with lat8
    by (vm_compute; reflexivity).
  replace (toRadians (div (of_Z (-80000000)) COORD_FACTOR)) with (SFopp lat8)
    by (vm_compute; reflexivity).
  replace (toRadians (div (of_Z 0) COORD_FACTOR)) with zero
    by (vm_compute; reflexivity).
  replace (toRadians (div (of_Z 1800000000) COORD_FACTOR)) with Math_PI
    by (vm_compute; reflexivity).
  replace (div (sub lat8 (SFopp lat8)) (of_Z 2)) with lat8
    by (vm_compute; reflexivity).
  replace (div (sub zero Math_PI) (of_Z 2)) with (SFopp half_pi)
    by (vm_compute; reflexivity).
  rewrite sin_8, sin_minus_quarter, cos_8, cos_minus_8.
  replace (Math_sqrt
             (sub (of_Z 1)
                (add (mul sin_lat8 sin_lat8)
                   (mul (mul (mul cos_lat8 cos_lat8) (SFopp one)) (SFopp one)))))
    with S754_nan by (vm_compute; reflexivity).
  rewrite atan2_of_nan. reflexivity.
Qed.

(** C5. Between 8 degrees north on the Greenwich meridian and 8 degrees
    south on the date line the haversine term [a] rounds to 1 + 2^-52, the
    square root of [1 - a] is NaN, and [getDistance] returns NaN in both
    directions: a result that is not a distance, for which [>= 0] is false
    and which [==] does not find equal to the result the other way. *)
Theorem getDistance_nan_near_antipode :
  getDistance Math north8 south8 = S754_nan
  /\ getDistance Math south8 north8 = S754_nan
  /\ SFleb zero (getDistance Math north8 south8) = false
  /\ SFeqb (getDistance Math north8 south8) (getDistance Math south8 north8)
     = false.
Proof.
  rewrite getDistance_north8_south8, getDistance_south8_north8.
  repeat split.
Qed.

End NearAntipode.

(** ** Route recording *)

Section RecordRoute.

Variable Math : MathObject.
Variable feature_list : list Feature.

Lemma recordRoute_data_counts (points : list Coordinate) (r : recorder) :
  let r' := fold_left (recordRoute_data Math feature_list) points r in
  var_point_count r' = var_point_count r + Z.of_nat (length points)
  /\ var_feature_count r'
     = var_feature_count r + Z.of_nat (length (filter (named feature_list) points)).
Proof.
  revert r. induction points as [| p rest IH]; intros r; simpl.
  - lia.
  - destruct (IH (recordRoute_data Math feature_list r p)) as [Hp Hf].
    rewrite Hp, Hf. clear IH Hp Hf. rewrite filter_cons.
    simpl. destruct (String.eqb (name (checkFeature feature_list p)) EmptyString) eqn:E.
    + apply String.eqb_eq in E.
      rewrite decide_False by (unfold named; tauto). simpl. lia.
    + apply String.eqb_neq in E.
      rewrite decide_True by (unfold named; assumption).
      simpl. lia.
Qed.

Lemma process_hrtime_elapsed (clock0 clock1 : hrtime) :
  hrtime_wf clock0 -> hrtime_wf clock1 -> hrtime_le clock0 clock1 ->
  0 <= fst (process_hrtime clock1 (Some clock0)).
Proof.
  unfold hrtime_wf, hrtime_le, process_hrtime.
  destruct clock0 as [s0 n0], clock1 as [s1 n1]; simpl.
  intros H0 H1 Hle. destruct (n1 - n0 <? 0) eqn:E; simpl.
  - apply Z.ltb_lt in E. lia.
  - lia.
Qed.

(** C10. The summary counts every point received and, among them, the
    points at which [checkFeature] finds a feature with a non-empty
    name; so [feature_count] never exceeds [point_count]. *)
Theorem recordRoute_feature_count_le (clock0 clock1 : hrtime)
    (points : list Coordinate) :
  let summary := cb_value (recordRoute Math feature_list clock0 clock1 points) in
  point_count summary = Z.of_nat (length points)
  /\ feature_count summary = Z.of_nat (length (filter (named feature_list) points))
  /\ 0 <= feature_count summary <= point_count summary.
Proof.
  simpl.
  destruct (recordRoute_data_counts points recorder_init) as [Hp Hf].
  simpl in Hp, Hf. rewrite Hp, Hf.
  pose proof (length_filter (named feature_list) points). lia.
Qed.

(** C8. With no point the summary is all zeros, and with one point it
    counts that point, counts a feature when [checkFeature] finds one
    with a non-empty name there, and reports distance 0; the elapsed
    time is not negative as long as the clock does not run backwards. *)
Theorem recordRoute_zero_or_one_point (clock0 clock1 : hrtime) (point : Coordinate) :
  hrtime_wf clock0 -> hrtime_wf clock1 -> hrtime_le clock0 clock1 ->
  (exists elapsed,
      0 <= elapsed
      /\ recordRoute Math feature_list clock0 clock1 []
         = Callback None
             {| point_count := 0; feature_count := 0;
                distance := 0; elapsed_time := elapsed |})
  /\ (exists elapsed,
         0 <= elapsed
         /\ recordRoute Math feature_list clock0 clock1 [point]
            = Callback None
                {| point_count := 1;
                   feature_count := if decide (named feature_list point) then 1 else 0;
                   distance := 0; elapsed_time := elapsed |}).
Proof.
  intros H0 H1 Hle.
  pose proof (process_hrtime_elapsed clock0 clock1 H0 H1 Hle) as Hel.
  split; exists (fst (process_hrtime clock1 (Some clock0)));
    (split; [exact Hel |]).
  - reflexivity.
  - unfold recordRoute, recordRoute_end, recordRoute_data. simpl.
    f_equal. f_equal.
    destruct (String.eqb (name (checkFeature feature_list point)) EmptyString) eqn:E.
    + apply String.eqb_eq in E.
      rewrite decide_False by (unfold named; tauto). reflexivity.
    + apply String.eqb_neq in E.
      rewrite decide_True by (unfold named; assumption). reflexivity.
Qed.

End RecordRoute.

(** *** The cast of the distance *)

Lemma bitor_0_in_range (x : number) :
  0 <= truncate x < 2 ^ 31 -> bitor_0 x = truncate x.
Proof.
  intros H. unfold bitor_0, ToInt32.
  rewrite Z.mod_small by lia.
  destruct (truncate x >=? 2 ^ 31) eqn:E; [| reflexivity].
  rewrite Z.geb_leb in E. apply Z.leb_le in E. lia.
Qed.

Lemma recordRoute_data_legs (Math : MathObject) (feature_list : list Feature)
    (points : list Coordinate) (r : recorder) (previous : Coordinate) :
  var_previous r = Some previous ->
  var_distance (fold_left (recordRoute_data Math feature_list) points r)
  = fold_left add (legs_from Math previous points) (var_distance r).
Proof.
  revert r previous. induction points as [| p rest IH]; intros r previous Hprev.
  - reflexivity.
  - cbn [fold_left legs_from]. rewrite (IH _ p) by reflexivity.
    unfold recordRoute_data. cbn [var_distance]. rewrite Hprev. reflexivity.
Qed.

(** The running distance is the sum of the segments, added left to right
    as numbers; nothing is rounded to an integer on the way. *)
Lemma recordRoute_accumulates (Math : MathObject) (feature_list : list Feature)
    (points : list Coordinate) :
  var_distance (fold_left (recordRoute_data Math feature_list) points recorder_init)
  = fold_left add (legs Math points) zero.
Proof.
  destruct points as [| p rest]; [reflexivity |].
  cbn [fold_left legs]. rewrite (recordRoute_data_legs _ _ _ _ p) by reflexivity.
  reflexivity.
Qed.

(** As long as the sum stays below 2^31 the summary reports it truncated
    toward zero, once, and the result is not negative. *)
Lemma recordRoute_distance_in_range (Math : MathObject) (feature_list : list Feature)
    (clock0 clock1 : hrtime) (points : list Coordinate) :
  let total := fold_left add (legs Math points) zero in
  0 <= truncate total < 2 ^ 31 ->
  distance (cb_value (recordRoute Math feature_list clock0 clock1 points))
  = truncate total
  /\ 0 <= distance (cb_value (recordRoute Math feature_list clock0 clock1 points)).
Proof.
  intros total Hrange.
  assert (H : distance (cb_value (recordRoute Math feature_list clock0 clock1 points))
              = bitor_0 total).
  { unfold recordRoute, recordRoute_end. cbn [cb_value distance].
    rewrite recordRoute_accumulates. reflexivity. }
  rewrite H, (bitor_0_in_range total Hrange). lia.
Qed.

Section Equator.

Variable Math : MathObject.
Variable feature_list : list Feature.

(** What the engine answers at the five arguments involved. *)
Hypothesis sin_zero : Math_sin Math zero = zero.
Hypothesis sin_half_pi : Math_sin Math half_pi = one.
Hypothesis sin_minus_half_pi : Math_sin Math (SFopp half_pi) = SFopp one.
Hypothesis cos_zero : Math_cos Math zero = one.
Hypothesis atan2_one_zero : Math_atan2 Math one zero = half_pi.

Lemma getDistance_origin_antipode :
  getDistance Math origin antipode = half_equator.
Proof.
  unfold getDistance, origin, antipode.
  cbn [latitude longitude].
  replace (toRadians (div (of_Z 0) COORD_FACTOR)) with zero
    by (vm_compute; reflexivity).
  replace (toRadians (div (of_Z 1800000000) COORD_FACTOR)) with Math_PI
    by (vm_compute; reflexivity).
  replace (div (sub zero zero) (of_Z 2)) with zero by (vm_compute; reflexivity).
  replace (div (sub Math_PI zero) (of_Z 2)) with half_pi
    by (vm_compute; reflexivity).
  rewrite sin_zero, sin_half_pi, cos_zero.
  replace (add (mul zero zero) (mul (mul (mul one one) one) one)) with one
    by (vm_compute; reflexivity).
  replace (Math_sqrt one) with one by (vm_compute; reflexivity).
  replace (Math_sqrt (sub (of_Z 1) one)) with zero by (vm_compute; reflexivity).
  rewrite atan2_one_zero. reflexivity.
Qed.

Lemma getDistance_antipode_origin :
  getDistance Math antipode origin = half_equator.
Proof.
  unfold getDistance, origin, antipode.
  cbn [latitude longitude].
  replace (toRadians (div (of_Z 0) COORD_FACTOR)) with zero
    by (vm_compute; reflexivity).
  replace (toRadians (div (of_Z 1800000000) COORD_FACTOR)) with Math_PI
    by (vm_compute; reflexivity).
  replace (div (sub zero zero) (of_Z 2)) with zero by (vm_compute; reflexivity).
  replace (div (sub zero Math_PI) (of_Z 2)) with (SFopp half_pi)
    by (vm_compute; reflexivity).
  rewrite sin_zero, sin_minus_half_pi, cos_zero.
  replace (add (mul zero zero)
             (mul (mul (mul one one) (SFopp one)) (SFopp one))) with one
    by (vm_compute; reflexivity).
  replace (Math_sqrt one) with one by (vm_compute; reflexivity).
  replace (Math_sqrt (sub (of_Z 1) one)) with zero by (vm_compute; reflexivity).
  rewrite atan2_one_zero. reflexivity.
Qed.

Lemma recordRoute_data_distance (r : recorder) (previous point : Coordinate) :
  var_previous r = Some previous ->
  var_distance (recordRoute_data Math feature_list r point)
  = add (var_distance r) (getDistance Math previous point)
  /\ var_previous (recordRoute_data Math feature_list r point) = Some point.
Proof. intros H. unfold recordRoute_data. cbn [var_distance var_previous]. rewrite H. auto. Qed.

(** From the antipode, [there_and_back n] adds [2 n + 1] legs. *)
Lemma there_and_back_distance (n : nat) (r : recorder) :
  var_previous r = Some antipode ->
  var_distance (fold_left (recordRoute_data Math feature_list) (there_and_back n) r)
  = fold_left add (repeat half_equator (S (2 * n))) (var_distance r).
Proof.
  revert r. induction n as [| n IH]; intros r Hprev.
  - cbn [there_and_back fold_left Nat.mul repeat].
    destruct (recordRoute_data_distance r antipode origin Hprev) as [-> _].
    rewrite getDistance_antipode_origin. reflexivity.
  - replace (S (2 * S n)) with (S (S (S (2 * n)))) by lia.
    cbn [there_and_back fold_left repeat].
    destruct (recordRoute_data_distance r antipode origin Hprev) as [Hd1 Hp1].
    destruct (recordRoute_data_distance _ origin antipode Hp1) as [Hd2 Hp2].
    rewrite (IH _ Hp2), Hd2, Hd1.
    rewrite getDistance_antipode_origin, getDistance_origin_antipode.
    reflexivity.
Qed.

Lemma recordRoute_distance (clock0 clock1 : hrtime) (points : list Coordinate) :
  distance (cb_value (recordRoute Math feature_list clock0 clock1 points))
  = bitor_0
      (var_distance
         (fold_left (recordRoute_data Math feature_list) points recorder_init)).
Proof. reflexivity. Qed.

(** From the start, [there_and_back (S n)] adds [2 (n + 1)] legs. *)
Lemma there_and_back_accumulated (n : nat) :
  var_distance
    (fold_left (recordRoute_data Math feature_list) (there_and_back (S n))
       recorder_init)
  = fold_left add (repeat half_equator (2 * S n)) zero.
Proof.
  cbn [there_and_back fold_left].
  assert (H0 : var_previous (recordRoute_data Math feature_list recorder_init origin)
               = Some origin) by reflexivity.
  assert (Hz : var_distance (recordRoute_data Math feature_list recorder_init origin)
               = zero) by reflexivity.
  destruct (recordRoute_data_distance _ origin antipode H0) as [Hd Hp].
  rewrite (there_and_back_distance n _ Hp), Hd, Hz.
  rewrite getDistance_origin_antipode.
  replace (2 * S n)%nat with (S (S (2 * n))) by lia.
  reflexivity.
Qed.

(** C3. On the route that crosses half the equator 108 times the
    distances add up to 2161629373.97 metres, and [distance | 0] reports
    -2133337923: neither the sum truncated toward zero nor a distance that
    is not negative. *)
Theorem recordRoute_distance_wraps (clock0 clock1 : hrtime) :
  truncate
    (var_distance
       (fold_left (recordRoute_data Math feature_list) (there_and_back 54)
          recorder_init))
  = 2161629373
  /\ distance (cb_value (recordRoute Math feature_list clock0 clock1
                           (there_and_back 54)))
     = -2133337923.
Proof.
  rewrite recordRoute_distance, (there_and_back_accumulated 53).
  split; vm_compute; reflexivity.
Qed.

End Equator.

(** *** Points with missing fields *)

(** No call is rejected: the callback of [recordRoute] always gets a null
    error. *)
Lemma recordRoute_error_null (Math : MathObject) (feature_list : list Feature)
    (clock0 clock1 : hrtime) (points : list Coordinate) :
  cb_error (recordRoute Math feature_list clock0 clock1 points) = None.
Proof. reflexivity. Qed.

(** C4, as stated, fails: a call whose only point has no latitude is
    answered with a null error and a summary. *)
Lemma recordRoute_accepts_missing_latitude :
  ~ (forall (Math : MathObject) (srv : Server) (clock0 clock1 : hrtime)
            (messages : list PointMessage),
        Exists malformed messages ->
        exists err,
          cb_error (fst (recordRoute_handler Math srv clock0 clock1 messages))
          = Some err
          /\ code err = INVALID_ARGUMENT).
Proof.
  intros H.
  destruct (H equator_Math
              {| feature_list := [];
                 notes := {| objects := []; route_notes := ∅ |} |}
              (0, 0) (0, 0)
              [ {| wire_latitude := None; wire_longitude := Some 0 |} ])
    as (err & Herr & _).
  - constructor. left. reflexivity.
  - discriminate Herr.
Qed.

(** C4, amended. [recordRoute] validates nothing and rejects no call: a
    field that is missing from a point is read as 0, the callback gets a
    null error with the summary of the points so read, and the state of
    the server is left as it was. *)
Theorem recordRoute_never_rejects (Math : MathObject) (srv : Server)
    (clock0 clock1 : hrtime) (messages : list PointMessage) :
  let '(response, srv') := recordRoute_handler Math srv clock0 clock1 messages in
  cb_error response = None
  /\ response
     = recordRoute Math (feature_list srv) clock0 clock1
         (map (fun m => {| latitude := default 0 (wire_latitude m);
                           longitude := default 0 (wire_longitude m) |})
              messages)
  /\ point_count (cb_value response) = Z.of_nat (length messages)
  /\ srv' = srv.
Proof.
  unfold recordRoute_handler, recordRoute_call.
  repeat split.
  destruct (recordRoute_data_counts Math (feature_list srv)
              (map decode_Point messages) recorder_init) as [Hp _].
  rewrite length_map in Hp. exact Hp.
Qed.

(** ** Route chat *)

Lemma lookup_alloc_new (objects : list object) (o : object) :
  (objects ++ [o]) !! length objects = Some o.
Proof. apply list_lookup_middle. reflexivity. Qed.

Lemma lookup_alloc_old (objects : list object) (o x : object) (a : addr) :
  objects !! a = Some x -> (objects ++ [o]) !! a = Some x.
Proof. apply lookup_app_l_Some. Qed.

Lemma JSON_parse_eq (objects : list object) (text : RouteNote) :
  JSON_parse objects text
  = (S (length objects),
     (objects
        ++ [OPoint (latitude (note_location text)) (longitude (note_location text))])
       ++ [ONote (length objects) (message text)]).
Proof.
  unfold JSON_parse, alloc. rewrite length_app. simpl.
  f_equal. lia.
Qed.

(** The object built by [JSON.parse] prints as the text it was built from. *)
Lemma JSON_stringify_parse (objects : list object) (text : RouteNote) :
  JSON_stringify (snd (JSON_parse objects text)) (fst (JSON_parse objects text))
  = Some text.
Proof.
  rewrite JSON_parse_eq. simpl. unfold JSON_stringify, read_point.
  replace (S (length objects))
    with (length (objects ++ [OPoint (latitude (note_location text))
                                (longitude (note_location text))]))
    by (rewrite length_app; simpl; lia).
  rewrite lookup_alloc_new.
  rewrite (lookup_alloc_old _ _ _ _ (lookup_alloc_new objects _)).
  destruct text as [[lat lon] msg]. reflexivity.
Qed.

(** Objects are never overwritten, so a note keeps its text when the store
    grows. *)
Lemma JSON_stringify_grow (objects more : list object) (a : addr) (text : RouteNote) :
  JSON_stringify objects a = Some text ->
  JSON_stringify (objects ++ more) a = Some text.
Proof.
  unfold JSON_stringify, read_point. intros H.
  destruct (objects !! a) as [[lat lon | loc msg] |] eqn:Ha; try discriminate.
  rewrite (lookup_app_l_Some _ _ _ _ Ha).
  destruct (objects !! loc) as [[lat lon | loc' msg'] |] eqn:Hl; try discriminate.
  rewrite (lookup_app_l_Some _ _ _ _ Hl). exact H.
Qed.

Lemma JSON_stringify_allocated (objects : list object) (a : addr) :
  is_Some (JSON_stringify objects a) -> (a < length objects)%nat.
Proof.
  unfold JSON_stringify. intros [text H].
  destruct (objects !! a) eqn:Ha; [| discriminate].
  apply lookup_lt_Some in Ha. exact Ha.
Qed.

Lemma lodash_each_call_write (previous : list addr) (call : Writable addr) :
  lodash_each previous call_write call
  = {| written := written call ++ previous; ended := ended call |}.
Proof.
  unfold lodash_each. revert call.
  induction previous as [| a rest IH]; intros call; simpl.
  - rewrite app_nil_r. destruct call; reflexivity.
  - rewrite IH. simpl. rewrite <- app_assoc. reflexivity.
Qed.

(** What one message does, in closed form. *)
Lemma routeChat_receive_eq (pointKey : Coordinate -> string)
    (call : Writable addr) (msg : RouteNote) (g : Registry) :
  let key := pointKey (note_location msg) in
  let previous := default [] (route_notes g !! key) in
  let objects1 := snd (decode_RouteNote (objects g) msg) in
  routeChat_receive pointKey call msg g
  = Some ({| written := written call ++ previous; ended := ended call |},
          {| objects := snd (JSON_parse objects1 msg);
             route_notes :=
               <[key := previous ++ [fst (JSON_parse objects1 msg)]]>
                 (route_notes g) |}).
Proof.
  intros key previous objects1.
  pose proof (JSON_stringify_parse (objects g) msg) as Hs.
  unfold routeChat_receive, decode_RouteNote in *.
  subst objects1. unfold decode_RouteNote.
  destruct (JSON_parse (objects g) msg) as [note objs1] eqn:Hparse.
  simpl in Hs. unfold routeChat_data. cbn [objects route_notes].
  rewrite JSON_parse_eq in Hparse. inversion Hparse; subst note objs1. clear Hparse.
  set (objs1 := (objects g ++ _) ++ _) in *.
  assert (Hnote : objs1 !! S (length (objects g))
                  = Some (ONote (length (objects g)) (message msg))).
  { subst objs1.
    replace (S (length (objects g)))
      with (length (objects g ++ [OPoint (latitude (note_location msg))
                                    (longitude (note_location msg))]))
      by (rewrite length_app; simpl; lia).
    apply lookup_alloc_new. }
  assert (Hloc : read_point objs1 (length (objects g)) = Some (note_location msg)).
  { unfold read_point. subst objs1.
    rewrite (lookup_alloc_old _ _ _ _ (lookup_alloc_new (objects g) _)).
    destruct msg as [[lat lon] m]. reflexivity. }
  rewrite Hnote, Hloc, Hs. fold key.
  rewrite !JSON_parse_eq. cbn [fst snd].
  destruct (route_notes g !! key) as [prev |] eqn:Hkey; subst previous;
    cbn [default].
  - rewrite lodash_each_call_write, Hkey. reflexivity.
  - rewrite lookup_insert_eq, insert_insert_eq, app_nil_r.
    destruct call; reflexivity.
Qed.

Lemma JSON_parse_grows (objects : list object) (text : RouteNote) :
  exists more, snd (JSON_parse objects text) = objects ++ more.
Proof.
  rewrite JSON_parse_eq. simpl. rewrite <- app_assoc. eauto.
Qed.

Lemma JSON_parse_fresh (objects : list object) (text : RouteNote) :
  fst (JSON_parse objects text) = S (length objects)
  /\ length (snd (JSON_parse objects text)) = S (S (length objects)).
Proof.
  rewrite JSON_parse_eq. simpl. rewrite !length_app. simpl. lia.
Qed.

Lemma JSON_parse_note (objects : list object) (text : RouteNote) :
  snd (JSON_parse objects text) !! fst (JSON_parse objects text)
  = Some (ONote (length objects) (message text)).
Proof.
  rewrite JSON_parse_eq. simpl.
  replace (S (length objects))
    with (length (objects ++ [OPoint (latitude (note_location text))
                                (longitude (note_location text))]))
    by (rewrite length_app; simpl; lia).
  apply lookup_alloc_new.
Qed.

(** C2. When a note arrives, [routeChat] writes to the stream of the call
    exactly the notes stored so far under the key of its location, oldest
    first, and nothing of the note itself; it then appends to that key a
    copy of the note: an object that did not exist when the listener was
    called, that is neither the received object [note] nor shares its
    location object, and that is equal to the note field by field. Other
    keys and the objects already there are left alone. *)
Theorem routeChat_replays_then_stores (pointKey : Coordinate -> string)
    (call : Writable addr) (msg : RouteNote) (g : Registry) :
  Registry_wf g ->
  let key := pointKey (note_location msg) in
  let previous := default [] (route_notes g !! key) in
  let note := fst (decode_RouteNote (objects g) msg) in
  let received := snd (decode_RouteNote (objects g) msg) in
  exists (copy : addr) (call' : Writable addr) (g' : Registry),
    routeChat_receive pointKey call msg g = Some (call', g')
    /\ routeChat_data pointKey call note
         {| objects := received; route_notes := route_notes g |}
       = Some (call', g')
    /\ JSON_stringify received note = Some msg
    /\ written call' = written call ++ previous
    /\ ended call' = ended call
    /\ (note ∉ previous) /\ (copy ∉ previous)
    /\ route_notes g' !! key = Some (previous ++ [copy])
    /\ (forall k, k <> key -> route_notes g' !! k = route_notes g !! k)
    /\ objects g !! note = None /\ objects g !! copy = None
    /\ received !! copy = None
    /\ JSON_stringify (objects g') note = Some msg
    /\ JSON_stringify (objects g') copy = Some msg
    /\ copy <> note
    /\ (exists loc loc',
           received !! note = Some (ONote loc (message msg))
           /\ objects g' !! note = Some (ONote loc (message msg))
           /\ objects g' !! copy = Some (ONote loc' (message msg))
           /\ loc <> loc'
           /\ received !! loc' = None)
    /\ (forall a o, received !! a = Some o -> objects g' !! a = Some o)
    /\ (forall a o, objects g !! a = Some o -> objects g' !! a = Some o)
    /\ Registry_wf g'.
Proof.
  intros Hwf key previous note received.
  pose proof (routeChat_receive_eq pointKey call msg g) as Heq.
  cbv zeta in Heq. fold key in Heq. fold previous in Heq.
  assert (Hdata :
    routeChat_receive pointKey call msg g
    = routeChat_data pointKey call note
        {| objects := received; route_notes := route_notes g |}).
  { unfold routeChat_receive, note, received.
    destruct (decode_RouteNote (objects g) msg) as [n o]. reflexivity. }
  unfold decode_RouteNote in *.
  fold received in Heq.
  set (objects2 := snd (JSON_parse received msg)) in *.
  set (copy := fst (JSON_parse received msg)) in *.
  destruct (JSON_parse_fresh (objects g) msg) as [Hnote Hlen1].
  destruct (JSON_parse_fresh received msg) as [Hcopy Hlen2].
  fold note in Hnote. fold received in Hlen1.
  fold copy in Hcopy. fold objects2 in Hlen2.
  destruct (JSON_parse_grows (objects g) msg) as [more1 Hmore1].
  destruct (JSON_parse_grows received msg) as [more2 Hmore2].
  fold received in Hmore1. fold objects2 in Hmore2.
  assert (Hprev : forall a, a ∈ previous -> (a < length (objects g))%nat).
  { intros a Ha. subst previous.
    destruct (route_notes g !! key) as [l |] eqn:Hl; simpl in Ha.
    - apply JSON_stringify_allocated. apply (Hwf key l a Hl Ha).
    - inversion Ha. }
  assert (Hs0 : JSON_stringify received note = Some msg)
    by apply JSON_stringify_parse.
  assert (Hs1 : JSON_stringify objects2 note = Some msg).
  { rewrite Hmore2. apply JSON_stringify_grow. exact Hs0. }
  assert (Hs2 : JSON_stringify objects2 copy = Some msg)
    by apply JSON_stringify_parse.
  exists copy. do 2 eexists. split; [exact Heq |].
  split; [rewrite <- Hdata; exact Heq |].
  cbn [written ended objects route_notes].
  repeat match goal with |- _ /\ _ => split end.
  - exact Hs0.
  - reflexivity.
  - reflexivity.
  - intros Hin. apply Hprev in Hin. lia.
  - intros Hin. apply Hprev in Hin. lia.
  - apply lookup_insert_eq.
  - intros k Hk. apply lookup_insert_ne. congruence.
  - apply lookup_ge_None. lia.
  - apply lookup_ge_None. lia.
  - apply lookup_ge_None. lia.
  - exact Hs1.
  - exact Hs2.
  - lia.
  - exists (length (objects g)), (length received).
    repeat match goal with |- _ /\ _ => split end.
    + apply JSON_parse_note.
    + rewrite Hmore2. apply lookup_app_l_Some. apply JSON_parse_note.
    + apply JSON_parse_note.
    + lia.
    + apply lookup_ge_None. lia.
  - intros a o Ha. rewrite Hmore2. apply lookup_app_l_Some, Ha.
  - intros a o Ha. rewrite Hmore2, Hmore1.
    apply lookup_app_l_Some, lookup_app_l_Some, Ha.
  - intros k l a Hl Ha. cbn [objects route_notes] in *.
    destruct (decide (k = key)) as [-> | Hne].
    + rewrite lookup_insert_eq in Hl. inversion Hl; subst l.
      apply elem_of_app in Ha as [Ha | Ha].
      * assert (Hold : is_Some (JSON_stringify (objects g) a)).
        { subst previous.
          destruct (route_notes g !! key) as [l |] eqn:Hk; simpl in Ha.
          - apply (Hwf key l a Hk Ha).
          - inversion Ha. }
        destruct Hold as [text Htext]. exists text.
        rewrite Hmore2, Hmore1, <- app_assoc.
        apply JSON_stringify_grow, Htext.
      * apply list_elem_of_singleton in Ha. subst a. eauto.
    + rewrite lookup_insert_ne in Hl by congruence.
      destruct (Hwf k l a Hl Ha) as [text Htext]. exists text.
      rewrite Hmore2, Hmore1, <- app_assoc.
      apply JSON_stringify_grow, Htext.
Qed.

(** *** Calls in flight together *)

Section Interleaving.

Variable pointKey : Coordinate -> string.

(** After a message is handled its copy is in the registry. *)
Lemma routeChat_receive_stores (call call' : Writable addr) (msg : RouteNote)
    (g g' : Registry) :
  routeChat_receive pointKey call msg g = Some (call', g') ->
  stored g' (pointKey (note_location msg)) msg.
Proof.
  rewrite routeChat_receive_eq. intros H. inversion H; subst; clear H.
  unfold stored. cbn [objects route_notes].
  eexists _, _. split; [apply lookup_insert_eq |]. split.
  - apply elem_of_app. right. apply list_elem_of_singleton. reflexivity.
  - apply JSON_stringify_parse.
Qed.

(** Handling a message removes nothing from the registry. *)
Lemma routeChat_receive_keeps (call call' : Writable addr) (msg : RouteNote)
    (g g' : Registry) (key : string) (old : RouteNote) :
  routeChat_receive pointKey call msg g = Some (call', g') ->
  stored g key old -> stored g' key old.
Proof.
  rewrite routeChat_receive_eq. intros H. inversion H; subst; clear H.
  intros (l & a & Hl & Ha & Htext).
  unfold stored. cbn [objects route_notes]. unfold decode_RouteNote.
  destruct (JSON_parse_grows (objects g) msg) as [more1 Hmore1].
  destruct (JSON_parse_grows (snd (JSON_parse (objects g) msg)) msg)
    as [more2 Hmore2].
  assert (Htext' :
    JSON_stringify (snd (JSON_parse (snd (JSON_parse (objects g) msg)) msg)) a
    = Some old).
  { rewrite Hmore2, Hmore1, <- app_assoc. apply JSON_stringify_grow, Htext. }
  destruct (decide (key = pointKey (note_location msg))) as [-> | Hne].
  - rewrite Hl. cbn [default].
    eexists _, a. split; [apply lookup_insert_eq |]. split; [| exact Htext'].
    apply elem_of_app. left. exact Ha.
  - exists l, a. split; [| split; [exact Ha | exact Htext']].
    rewrite lookup_insert_ne by congruence. exact Hl.
Qed.

(** A stored note is replayed to the next caller at its key. *)
Lemma routeChat_receive_replays (call call' : Writable addr) (msg : RouteNote)
    (g g' : Registry) (old : RouteNote) :
  routeChat_receive pointKey call msg g = Some (call', g') ->
  stored g (pointKey (note_location msg)) old ->
  exists history a,
    written call' = written call ++ history
    /\ a ∈ history
    /\ JSON_stringify (objects g) a = Some old.
Proof.
  rewrite routeChat_receive_eq. intros H. inversion H; subst; clear H.
  intros (l & a & Hl & Ha & Htext). cbn [written].
  rewrite Hl. cbn [default]. exists l, a. auto.
Qed.

Lemma deliver_total (sys : System) (ev : nat * RouteNote) :
  exists sys', deliver pointKey sys ev = Some sys'.
Proof.
  destruct ev as [c msg]. unfold deliver.
  rewrite routeChat_receive_eq. eauto.
Qed.

(** The server never gets stuck on a sequence of messages. *)
Lemma run_total (events : list (nat * RouteNote)) (sys : System) :
  exists sys', run pointKey sys events = Some sys'.
Proof.
  revert sys. induction events as [| ev rest IH]; intros sys; simpl.
  - eauto.
  - destruct (deliver_total sys ev) as [sys1 ->]. apply IH.
Qed.

Lemma deliver_keeps (sys sys' : System) (ev : nat * RouteNote)
    (key : string) (old : RouteNote) :
  deliver pointKey sys ev = Some sys' ->
  stored (registry sys) key old -> stored (registry sys') key old.
Proof.
  destruct ev as [c msg]. unfold deliver.
  destruct (routeChat_receive pointKey (stream_of sys c) msg (registry sys))
    as [[call1 g1] |] eqn:Hr; [| discriminate].
  intros H. inversion H; subst; clear H. cbn [registry].
  eapply routeChat_receive_keeps; eassumption.
Qed.

Lemma run_keeps (events : list (nat * RouteNote)) (sys sys' : System)
    (key : string) (old : RouteNote) :
  run pointKey sys events = Some sys' ->
  stored (registry sys) key old -> stored (registry sys') key old.
Proof.
  revert sys. induction events as [| ev rest IH]; intros sys; simpl.
  - intros H. inversion H; subst. auto.
  - destruct (deliver pointKey sys ev) as [sys1 |] eqn:Hd; [| discriminate].
    intros Hrun Hst. apply (IH sys1 Hrun).
    eapply deliver_keeps; eassumption.
Qed.

Lemma run_app (events1 events2 : list (nat * RouteNote)) (sys : System) :
  run pointKey sys (events1 ++ events2)
  = match run pointKey sys events1 with
    | Some sys1 => run pointKey sys1 events2
    | None => None
    end.
Proof.
  revert sys. induction events1 as [| ev rest IH]; intros sys; simpl.
  - reflexivity.
  - destruct (deliver pointKey sys ev); [apply IH | reflexivity].
Qed.

(** C9. Take any order in which the event loop hands the messages of
    the open calls to their listeners. Once a message [e1] has been
    handled, a later message [e2] for the same key, from any call, is
    answered with a history that is not empty and holds the note of
    [e1]: two callers at one key never both see an empty history. *)
Theorem routeChat_history_not_lost (sys : System)
    (before between : list (nat * RouteNote)) (e1 e2 : nat * RouteNote) :
  pointKey (note_location (snd e1)) = pointKey (note_location (snd e2)) ->
  exists (sysA sysB : System) (history : list addr) (a : addr),
    run pointKey sys (before ++ e1 :: between) = Some sysA
    /\ deliver pointKey sysA e2 = Some sysB
    /\ written (stream_of sysB (fst e2))
       = written (stream_of sysA (fst e2)) ++ history
    /\ history <> []
    /\ a ∈ history
    /\ JSON_stringify (objects (registry sysA)) a = Some (snd e1).
Proof.
  intros Hkey.
  destruct (run_total before sys) as [sys0 Hrun0].
  destruct (deliver_total sys0 e1) as [sys1 Hd1].
  destruct (run_total between sys1) as [sysA HrunA].
  destruct (deliver_total sysA e2) as [sysB Hd2].
  assert (Hrun : run pointKey sys (before ++ e1 :: between) = Some sysA).
  { rewrite run_app, Hrun0. simpl. rewrite Hd1. exact HrunA. }
  assert (Hst : stored (registry sysA) (pointKey (note_location (snd e2))) (snd e1)).
  { apply (run_keeps between sys1 sysA _ _ HrunA). rewrite <- Hkey.
    destruct e1 as [c1 m1]. unfold deliver in Hd1.
    destruct (routeChat_receive pointKey (stream_of sys0 c1) m1 (registry sys0))
      as [[call1 g1] |] eqn:Hr; [| discriminate].
    inversion Hd1; subst; clear Hd1. cbn [registry snd].
    eapply routeChat_receive_stores; eassumption. }
  destruct e2 as [c2 m2]. cbn [fst snd] in *.
  pose proof Hd2 as Hd2'. unfold deliver in Hd2'.
  destruct (routeChat_receive pointKey (stream_of sysA c2) m2 (registry sysA))
    as [[call2 g2] |] eqn:Hr; [| discriminate].
  inversion Hd2'; subst; clear Hd2'.
  destruct (routeChat_receive_replays _ _ _ _ _ _ Hr Hst)
    as (history & a & Hw & Ha & Htext).
  exists sysA. eexists. exists history, a.
  split; [exact Hrun |]. split; [exact Hd2 |].
  split.
  { unfold stream_of at 1. cbn [calls]. rewrite lookup_insert_eq. exact Hw. }
  split; [| split; assumption].
  intros ->. inversion Ha.
Qed.

End Interleaving.

(** * The theorems at sample inputs *)

(** C8 between two readings of the clock a little over a second apart. *)
Lemma recordRoute_zero_or_one_point_witness :
  (hrtime_wf (10, 999999999) /\ hrtime_wf (12, 3)
   /\ hrtime_le (10, 999999999) (12, 3))
  /\ (exists elapsed,
         0 <= elapsed
         /\ recordRoute equator_Math [feature_A] (10, 999999999) (12, 3) []
            = Callback None
                {| point_count := 0; feature_count := 0; distance := 0;
                   elapsed_time := elapsed |})
  /\ (exists elapsed,
         0 <= elapsed
         /\ recordRoute equator_Math [feature_A] (10, 999999999) (12, 3) [origin]
            = Callback None
                {| point_count := 1;
                   feature_count :=
                     if decide (named [feature_A] origin) then 1 else 0;
                   distance := 0; elapsed_time := elapsed |}).
Proof.
  assert (H0 : hrtime_wf (10, 999999999)) by (unfold hrtime_wf; simpl; lia).
  assert (H1 : hrtime_wf (12, 3)) by (unfold hrtime_wf; simpl; lia).
  assert (Hle : hrtime_le (10, 999999999) (12, 3))
    by (unfold hrtime_le; simpl; lia).
  split; [auto |].
  apply (recordRoute_zero_or_one_point equator_Math [feature_A]
           (10, 999999999) (12, 3) origin H0 H1 Hle).
Defined.

(** C3 with [equator_Math] for the engine. *)
Lemma recordRoute_distance_wraps_witness :
  (Math_sin equator_Math zero = zero
   /\ Math_sin equator_Math half_pi = one
   /\ Math_sin equator_Math (SFopp half_pi) = SFopp one
   /\ Math_cos equator_Math zero = one
   /\ Math_atan2 equator_Math one zero = half_pi)
  /\ distance (cb_value (recordRoute equator_Math [] (0, 0) (0, 0)
                           (there_and_back 54)))
     = -2133337923.
Proof.
  split; [repeat split |].
  apply (recordRoute_distance_wraps equator_Math [] eq_refl eq_refl eq_refl
           eq_refl eq_refl (0, 0) (0, 0)).
Defined.

Lemma empty_registry_wf : Registry_wf empty_registry.
Proof.
  intros key l a H. simpl in H. rewrite lookup_empty in H. discriminate H.
Defined.

Lemma registry_after_N1_wf : Registry_wf registry_after_N1.
Proof.
  intros key l a H Ha. cbn [registry_after_N1 route_notes] in H.
  apply lookup_singleton_Some in H as [_ <-].
  apply list_elem_of_singleton in Ha. subst a.
  exists N1. reflexivity.
Defined.

(** C2 for [N2] arriving when [N1] is stored for the same point: [N1] is
    replayed, then the copy of [N2] is stored after it. *)
Lemma routeChat_replays_then_stores_witness :
  Registry_wf registry_after_N1
  /\ exists (copy : addr) (call' : Writable addr) (g' : Registry),
       routeChat_receive decimal_pointKey call_new N2 registry_after_N1
       = Some (call', g')
       /\ written call' = [3%nat]
       /\ JSON_stringify (objects g') 3%nat = Some N1
       /\ route_notes g' !! "5 5"%string = Some [3%nat; copy]
       /\ JSON_stringify (objects g') copy = Some N2
       /\ copy <> fst (decode_RouteNote (objects registry_after_N1) N2)
       /\ snd (decode_RouteNote (objects registry_after_N1) N2) !! copy = None.
Proof.
  split; [exact registry_after_N1_wf |].
  destruct (routeChat_replays_then_stores decimal_pointKey call_new N2
              registry_after_N1 registry_after_N1_wf)
    as (copy & call' & g' & Hrun & _ & _ & Hw & _ & _ & _ & Hkey & _ & _ & _
        & Hfresh & _ & Hcopy & Hne & _ & _ & Hold & _).
  assert (Hprev :
    default []
      (route_notes registry_after_N1 !! decimal_pointKey (note_location N2))
    = [3%nat]) by (vm_compute; reflexivity).
  rewrite Hprev in Hw, Hkey.
  exists copy, call', g'.
  split; [exact Hrun |]. split; [exact Hw |].
  split.
  { unfold JSON_stringify, read_point.
    rewrite (Hold 3%nat _ eq_refl), (Hold 2%nat _ eq_refl). reflexivity. }
  split; [exact Hkey |]. split; [exact Hcopy |].
  split; [exact Hne | exact Hfresh].
Defined.

(** C9 for two calls that send [N1] and [N2], for the same point, one
    after the other. *)
Lemma routeChat_history_not_lost_witness :
  decimal_pointKey (note_location (snd (1%nat, N1)))
  = decimal_pointKey (note_location (snd (2%nat, N2)))
  /\ exists (sysA sysB : System) (history : list addr),
       run decimal_pointKey idle_system [(1%nat, N1)] = Some sysA
       /\ deliver decimal_pointKey sysA (2%nat, N2) = Some sysB
       /\ written (stream_of sysB 2%nat) = history
       /\ history <> [].
Proof.
  split; [reflexivity |].
  destruct (routeChat_history_not_lost decimal_pointKey idle_system [] []
              (1%nat, N1) (2%nat, N2) eq_refl)
    as (sysA & sysB & history & a & Hrun & Hd & Hw & Hne & _).
  exists sysA, sysB, history. repeat split; try assumption.
  simpl in Hrun. inversion Hrun; subst sysA. exact Hw.
Defined.

Lemma libm_Math_atan2_nan (y : number) :
  Math_atan2 libm_Math y S754_nan = S754_nan.
Proof.
  unfold libm_Math. cbn [Math_atan2].
  destruct (same_number y one), (same_number y zero); reflexivity.
Defined.

(** C5 with [libm_Math] for the engine. *)
Lemma getDistance_nan_near_antipode_witness :
  (Math_sin libm_Math lat8 = sin_lat8
   /\ Math_sin libm_Math (SFopp lat8) = SFopp sin_lat8
   /\ Math_cos libm_Math lat8 = cos_lat8
   /\ Math_cos libm_Math (SFopp lat8) = cos_lat8
   /\ Math_sin libm_Math half_pi = one
   /\ Math_sin libm_Math (SFopp half_pi) = SFopp one
   /\ (forall y, Math_atan2 libm_Math y S754_nan = S754_nan))
  /\ getDistance libm_Math north8 south8 = S754_nan
  /\ getDistance libm_Math south8 north8 = S754_nan
  /\ SFleb zero (getDistance libm_Math north8 south8) = false
  /\ SFeqb (getDistance libm_Math north8 south8)
           (getDistance libm_Math south8 north8)
     = false.
Proof.
  split.
  - repeat split; try reflexivity. exact libm_Math_atan2_nan.
  - apply (getDistance_nan_near_antipode libm_Math eq_refl eq_refl eq_refl
             eq_refl eq_refl eq_refl libm_Math_atan2_nan).
Defined.

(** * The scenarios of the specification *)

Example getFeature_found :
  getFeature [feature_A] {| latitude := 0; longitude := 0 |}
  = Callback None feature_A.
Proof. reflexivity. Qed.

Example getFeature_not_found :
  getFeature [feature_A] {| latitude := 1; longitude := 1 |}
  = Callback None
      {| name := EmptyString; location := {| latitude := 1; longitude := 1 |} |}.
Proof. reflexivity. Qed.

(** The first entry at a point wins, also when it has no name. *)
Example checkFeature_first_of_two :
  checkFeature
    [ {| name := EmptyString; location := origin |}; {| name := "B"; location := origin |} ]
    origin
  = {| name := EmptyString; location := origin |}.
Proof. reflexivity. Qed.

Example listFeatures_around_A :
  listFeatures [feature_A]
    {| lo := {| latitude := -1; longitude := -1 |};
       hi := {| latitude := 1; longitude := 1 |} |}
  = {| written := [feature_A]; ended := true |}.
Proof. reflexivity. Qed.

(** A feature on a corner of the rectangle is listed. *)
Example listFeatures_on_the_bound :
  listFeatures [feature_A]
    {| lo := {| latitude := 0; longitude := 7 |};
       hi := {| latitude := -3; longitude := 0 |} |}
  = {| written := [feature_A]; ended := true |}.
Proof. reflexivity. Qed.

Example process_hrtime_borrows :
  process_hrtime (12, 3) (Some (10, 999999999)) = (1, 4).
Proof. reflexivity. Qed.

Example bitor_0_truncates :
  bitor_0 (div (of_Z 37) (of_Z 10)) = 3
  /\ bitor_0 (div (of_Z (-37)) (of_Z 10)) = -3
  /\ bitor_0 S754_nan = 0
  /\ bitor_0 (of_Z (2 ^ 31)) = - 2 ^ 31.
Proof. repeat split; vm_compute; reflexivity. Qed.

(** [N1] arrives on one call and [N2], for the same point, on another:
    the first caller gets nothing, the second gets the stored copy of
    [N1], and the key then holds the copies of [N1] and [N2] in that
    order. *)
Example routeChat_two_callers :
  exists sys copy1 copy2,
    run decimal_pointKey idle_system [(1%nat, N1); (2%nat, N2)] = Some sys
    /\ written (stream_of sys 1%nat) = []
    /\ written (stream_of sys 2%nat) = [copy1]
    /\ route_notes (registry sys) !! "5 5"%string = Some [copy1; copy2]
    /\ JSON_stringify (objects (registry sys)) copy1 = Some N1
    /\ JSON_stringify (objects (registry sys)) copy2 = Some N2.
Proof.
  eexists _, 3%nat, 7%nat. repeat split; vm_compute; reflexivity.
Qed.

(** * Further properties *)

(** ** Lookup and listing *)

Lemma listFeatures_written (feature_list : list Feature) (rect : Rectangle) :
  written (listFeatures feature_list rect) = listInRegion feature_list rect.
Proof.
  unfold listFeatures, lodash_each. simpl.
  destruct (listFeatures_step_written rect feature_list call_new) as [Hw _].
  exact Hw.
Qed.

(** X1. Whatever the collection holds, the feature that [checkFeature]
    returns is located at the queried point. *)
Theorem checkFeature_location (feature_list : list Feature) (point : Coordinate) :
  location (checkFeature feature_list point) = point.
Proof.
  induction feature_list as [| f rest IH]; simpl.
  - reflexivity.
  - destruct (at_point f point) eqn:Hat; [| exact IH].
    apply at_point_true. exact Hat.
Qed.

(** X2. In a collection made of two parts the first part has precedence:
    when it has a feature at the point, the second part is never looked
    at; when it has none, the answer is that of the second part. *)
Theorem checkFeature_app (first second : list Feature) (point : Coordinate) :
  checkFeature (first ++ second) point
  = if existsb (fun feature => at_point feature point) first
    then checkFeature first point
    else checkFeature second point.
Proof.
  induction first as [| f rest IH]; simpl.
  - reflexivity.
  - destruct (at_point f point); simpl; [reflexivity | exact IH].
Qed.

(** X3. Listing a collection made of two parts writes what listing the
    first part writes, followed by what listing the second part writes. *)
Theorem listFeatures_app (first second : list Feature) (rect : Rectangle) :
  written (listFeatures (first ++ second) rect)
  = written (listFeatures first rect) ++ written (listFeatures second rect).
Proof.
  rewrite !listFeatures_written. unfold listInRegion. apply filter_app.
Qed.

Lemma filter_sublist_impl {A} (P Q : A -> Prop)
    `{forall x, Decision (P x)} `{forall x, Decision (Q x)} (l : list A) :
  (forall x, P x -> Q x) -> sublist (filter P l) (filter Q l).
Proof.
  intros HPQ. induction l as [| x l IH].
  - constructor.
  - rewrite !filter_cons. destruct (decide (P x)) as [HP | HP].
    + rewrite decide_True by auto. constructor. exact IH.
    + destruct (decide (Q x)); [constructor |]; exact IH.
Qed.

(** X4. A rectangle that contains another lists at least what the other
    lists, in the same order: the smaller listing is obtained from the
    larger by leaving features out. *)
Theorem listFeatures_monotone (feature_list : list Feature) (inner outer : Rectangle) :
  Z.min (longitude (lo outer)) (longitude (hi outer))
    <= Z.min (longitude (lo inner)) (longitude (hi inner)) ->
  Z.max (longitude (lo inner)) (longitude (hi inner))
    <= Z.max (longitude (lo outer)) (longitude (hi outer)) ->
  Z.min (latitude (lo outer)) (latitude (hi outer))
    <= Z.min (latitude (lo inner)) (latitude (hi inner)) ->
  Z.max (latitude (lo inner)) (latitude (hi inner))
    <= Z.max (latitude (lo outer)) (latitude (hi outer)) ->
  sublist (written (listFeatures feature_list inner))
          (written (listFeatures feature_list outer)).
Proof.
  intros Hleft Hright Hbottom Htop.
  rewrite !listFeatures_written. unfold listInRegion.
  apply filter_sublist_impl. unfold inRegion.
  intros f (Hn & H1 & H2 & H3 & H4). split; [exact Hn | lia].
Qed.

(** X5. The two lookups agree: when [checkFeature] finds a feature with a
    non-empty name at a point, that feature is the first one that
    [listFeatures] writes for the rectangle reduced to the point. *)
Theorem listFeatures_at_point (feature_list : list Feature) (point : Coordinate) :
  named feature_list point ->
  head (written (listFeatures feature_list {| lo := point; hi := point |}))
  = Some (checkFeature feature_list point).
Proof.
  unfold named. rewrite listFeatures_written. unfold listInRegion.
  induction feature_list as [| f rest IH]; simpl; intros Hname.
  - congruence.
  - rewrite filter_cons.
    destruct (at_point f point) eqn:Hat.
    + apply at_point_true in Hat.
      rewrite decide_True; [reflexivity |].
      unfold inRegion. simpl. rewrite Hat. split; [exact Hname | lia].
    + apply at_point_false in Hat.
      rewrite decide_False; [apply IH, Hname |].
      unfold inRegion. simpl. intros (_ & H1 & H2 & H3 & H4).
      apply Hat. destruct f as [n [la lo]], point as [pla plo]. simpl in *.
      f_equal; lia.
Qed.

(** X6. With an empty collection, as before the database is read, no
    lookup finds a name: [checkFeature] answers with the unnamed feature,
    [listFeatures] ends the stream without writing, and [recordRoute]
    counts no feature however many points it receives. *)
Theorem empty_feature_list (Math : MathObject) (clock0 clock1 : hrtime)
    (point : Coordinate) (rect : Rectangle) (points : list Coordinate) :
  checkFeature [] point = {| name := EmptyString; location := point |}
  /\ listFeatures [] rect = {| written := []; ended := true |}
  /\ feature_count (cb_value (recordRoute Math [] clock0 clock1 points)) = 0
  /\ point_count (cb_value (recordRoute Math [] clock0 clock1 points))
     = Z.of_nat (length points).
Proof.
  split; [reflexivity |]. split; [reflexivity |].
  assert (Hnone : filter (named []) points = []).
  { induction points as [| p rest IH]; [reflexivity |].
    rewrite filter_cons, decide_False; [exact IH |].
    unfold named. simpl. tauto. }
  destruct (recordRoute_data_counts Math [] points recorder_init) as [Hp Hf].
  cbn [recordRoute recordRoute_end cb_value feature_count point_count].
  cbv zeta in Hp, Hf. rewrite Hp, Hf, Hnone.
  cbn [recorder_init var_point_count var_feature_count].
  split; [reflexivity | lia].
Qed.

(** ** The summary of a route *)

Lemma ToInt32_range (x : number) : - 2 ^ 31 <= ToInt32 x < 2 ^ 31.
Proof.
  unfold ToInt32.
  pose proof (Z.mod_pos_bound (truncate x) (2 ^ 32) ltac:(lia)) as Hm.
  destruct (truncate x mod 2 ^ 32 >=? 2 ^ 31) eqn:E;
    rewrite Z.geb_leb in E; [apply Z.leb_le in E | apply Z.leb_gt in E]; lia.
Qed.

(** X7. Whatever the points and the engine, the reported distance is an
    integer of the [int32] range, equal to the truncated sum modulo
    2^32. *)
Theorem recordRoute_distance_int32 (Math : MathObject) (feature_list : list Feature)
    (clock0 clock1 : hrtime) (points : list Coordinate) :
  let d := distance (cb_value (recordRoute Math feature_list clock0 clock1 points)) in
  - 2 ^ 31 <= d < 2 ^ 31
  /\ d mod 2 ^ 32
     = truncate (fold_left add (legs Math points) zero) mod 2 ^ 32.
Proof.
  cbv zeta. rewrite recordRoute_distance, recordRoute_accumulates.
  split; [apply ToInt32_range |].
  unfold bitor_0, ToInt32.
  destruct (_ >=? 2 ^ 31).
  - rewrite <- (Z.mod_add _ 1 (2 ^ 32)) by lia.
    replace (_ - 2 ^ 32 + 1 * 2 ^ 32)
      with (truncate (fold_left add (legs Math points) zero) mod 2 ^ 32) by lia.
    apply Z.mod_mod. lia.
  - apply Z.mod_mod. lia.
Qed.

Lemma add_nan_l (x : number) : add S754_nan x = S754_nan.
Proof. reflexivity. Qed.

Lemma add_nan_r (x : number) : add x S754_nan = S754_nan.
Proof. destruct x; reflexivity. Qed.

Lemma fold_add_nan (l : list number) : fold_left add l S754_nan = S754_nan.
Proof.
  induction l as [| x l IH]; [reflexivity |].
  cbn [fold_left]. rewrite add_nan_l. exact IH.
Qed.

Lemma fold_add_with_nan (l : list number) (x : number) :
  In S754_nan l -> fold_left add l x = S754_nan.
Proof.
  revert x. induction l as [| y l IH]; intros x Hin; [destruct Hin |].
  cbn [fold_left]. destruct Hin as [-> | Hin].
  - rewrite add_nan_r. apply fold_add_nan.
  - apply IH, Hin.
Qed.

(** X8. One segment whose distance is NaN is enough for the summary to
    report distance 0, whatever the other segments are. *)
Theorem recordRoute_distance_nan (Math : MathObject) (feature_list : list Feature)
    (clock0 clock1 : hrtime) (points : list Coordinate) :
  In S754_nan (legs Math points) ->
  distance (cb_value (recordRoute Math feature_list clock0 clock1 points)) = 0.
Proof.
  intros Hin.
  rewrite recordRoute_distance, recordRoute_accumulates.
  rewrite (fold_add_with_nan _ _ Hin). reflexivity.
Qed.

(** X9. The parts of the summary do not interfere: the distance is the
    same whatever the collection of features and the clock, the two
    counts are the same whatever the engine and the clock, and the
    elapsed time is the same whatever the points. *)
Theorem recordRoute_independence (Math Math' : MathObject)
    (feature_list feature_list' : list Feature)
    (clock0 clock1 clock0' clock1' : hrtime) (points points' : list Coordinate) :
  distance (cb_value (recordRoute Math feature_list clock0 clock1 points))
  = distance (cb_value (recordRoute Math feature_list' clock0' clock1' points))
  /\ point_count (cb_value (recordRoute Math feature_list clock0 clock1 points))
     = point_count (cb_value (recordRoute Math' feature_list clock0' clock1' points))
  /\ feature_count (cb_value (recordRoute Math feature_list clock0 clock1 points))
     = feature_count (cb_value (recordRoute Math' feature_list clock0' clock1' points))
  /\ elapsed_time (cb_value (recordRoute Math feature_list clock0 clock1 points))
     = elapsed_time (cb_value (recordRoute Math' feature_list' clock0 clock1 points')).
Proof.
  split.
  { rewrite !recordRoute_distance, !recordRoute_accumulates. reflexivity. }
  destruct (recordRoute_data_counts Math feature_list points recorder_init)
    as [Hp Hf].
  destruct (recordRoute_data_counts Math' feature_list points recorder_init)
    as [Hp' Hf'].
  cbv zeta in Hp, Hf, Hp', Hf'.
  cbn [recordRoute recordRoute_end cb_value point_count feature_count elapsed_time].
  rewrite Hp, Hf, Hp', Hf'. auto.
Qed.

(** X10. The elapsed time is the number of whole seconds between the two
    readings of the clock, rounded down. *)
Theorem recordRoute_elapsed_seconds (Math : MathObject) (feature_list : list Feature)
    (clock0 clock1 : hrtime) (points : list Coordinate) :
  hrtime_wf clock0 -> hrtime_wf clock1 ->
  elapsed_time (cb_value (recordRoute Math feature_list clock0 clock1 points))
  = (nanoseconds clock1 - nanoseconds clock0) / 1000000000.
Proof.
  unfold hrtime_wf, nanoseconds.
  cbn [recordRoute recordRoute_end cb_value elapsed_time].
  destruct clock0 as [s0 n0], clock1 as [s1 n1]. cbn [process_hrtime fst snd].
  intros H0 H1. destruct (n1 - n0 <? 0) eqn:E; cbn [fst].
  - apply Z.ltb_lt in E.
    apply (Z.div_unique _ _ _ (n1 - n0 + 1000000000)); lia.
  - apply Z.ltb_ge in E.
    apply (Z.div_unique _ _ _ (n1 - n0)); lia.
Qed.

Lemma bitor_0_add_zero (x : number) : bitor_0 (add zero x) = bitor_0 x.
Proof. destruct x as [[] | [] | | s m e]; reflexivity. Qed.

(** X11. With two points the summary reports the distance from the first
    to the second, cast to an integer: the first point adds nothing. *)
Theorem recordRoute_two_points (Math : MathObject) (feature_list : list Feature)
    (clock0 clock1 : hrtime) (first second : Coordinate) :
  distance (cb_value (recordRoute Math feature_list clock0 clock1 [first; second]))
  = bitor_0 (getDistance Math first second)
  /\ point_count (cb_value (recordRoute Math feature_list clock0 clock1
                              [first; second]))
     = 2.
Proof.
  split; [| reflexivity].
  rewrite recordRoute_distance, recordRoute_accumulates.
  cbn [legs legs_from fold_left]. apply bitor_0_add_zero.
Qed.

(** X12. The counts of a route made of two parts are the sums of the
    counts of the parts. *)
Theorem recordRoute_counts_app (Math : MathObject) (feature_list : list Feature)
    (clock0 clock1 : hrtime) (first second : list Coordinate) :
  point_count (cb_value (recordRoute Math feature_list clock0 clock1
                           (first ++ second)))
  = point_count (cb_value (recordRoute Math feature_list clock0 clock1 first))
    + point_count (cb_value (recordRoute Math feature_list clock0 clock1 second))
  /\ feature_count (cb_value (recordRoute Math feature_list clock0 clock1
                                (first ++ second)))
     = feature_count (cb_value (recordRoute Math feature_list clock0 clock1 first))
       + feature_count (cb_value (recordRoute Math feature_list clock0 clock1 second)).
Proof.
  destruct (recordRoute_data_counts Math feature_list (first ++ second)
              recorder_init) as [Hp Hf].
  destruct (recordRoute_data_counts Math feature_list first recorder_init)
    as [Hp1 Hf1].
  destruct (recordRoute_data_counts Math feature_list second recorder_init)
    as [Hp2 Hf2].
  cbv zeta in Hp, Hf, Hp1, Hf1, Hp2, Hf2.
  cbn [recordRoute recordRoute_end cb_value point_count feature_count].
  rewrite Hp, Hf, Hp1, Hf1, Hp2, Hf2.
  rewrite filter_app, !length_app. cbn [recorder_init var_point_count var_feature_count].
  lia.
Qed.

(** ** The registry and the streams, read by value *)

Lemma texts_grow (objects more : list object) (addrs : list addr)
    (notes : list RouteNote) :
  texts objects addrs = Some <$> notes ->
  texts (objects ++ more) addrs = Some <$> notes.
Proof.
  unfold texts. revert notes.
  induction addrs as [| a rest IH]; intros [| n notes] H;
    try discriminate H; [reflexivity |].
  rewrite !fmap_cons in *. injection H as Ha Hrest.
  rewrite (JSON_stringify_grow _ more _ _ Ha), (IH notes Hrest). reflexivity.
Qed.

Lemma at_key_snoc (pointKey : Coordinate -> string) (key : string)
    (seen : list RouteNote) (msg : RouteNote) :
  at_key pointKey key (seen ++ [msg])
  = at_key pointKey key seen
    ++ (if decide (pointKey (note_location msg) = key) then [msg] else []).
Proof.
  unfold at_key. rewrite filter_app. reflexivity.
Qed.

Section ByValue.

Variable pointKey : Coordinate -> string.

Lemma deliver_by_value (sys : System) (seen : list RouteNote)
    (acc : nat -> list RouteNote) (c : nat) (msg : RouteNote) :
  reads_as pointKey sys seen acc ->
  exists sys1,
    deliver pointKey sys (c, msg) = Some sys1
    /\ reads_as pointKey sys1 (seen ++ [msg])
         (fun c' =>
            acc c'
            ++ (if decide (c = c')
                then at_key pointKey (pointKey (note_location msg)) seen
                else [])).
Proof.
  intros [Hreg Hcalls]. unfold deliver.
  rewrite routeChat_receive_eq. eexists. split; [reflexivity |].
  unfold decode_RouteNote.
  destruct (JSON_parse_grows (objects (registry sys)) msg) as [more1 Hmore1].
  destruct (JSON_parse_grows (snd (JSON_parse (objects (registry sys)) msg)) msg)
    as [more2 Hmore2].
  pose proof (JSON_stringify_parse (snd (JSON_parse (objects (registry sys)) msg)) msg)
    as Hcopy.
  set (objects2 := snd (JSON_parse (snd (JSON_parse (objects (registry sys)) msg)) msg))
    in *.
  set (copy := fst (JSON_parse (snd (JSON_parse (objects (registry sys)) msg)) msg))
    in *.
  assert (Hgrow : objects2 = objects (registry sys) ++ (more1 ++ more2)).
  { rewrite Hmore2, Hmore1, <- app_assoc. reflexivity. }
  set (key := pointKey (note_location msg)) in *.
  split; cbn [registry objects route_notes calls].
  - intros k. destruct (decide (key = k)) as [<- | Hne].
    + rewrite lookup_insert_eq.
      match goal with
      | |- context [default [] (Some ?l)] => change (default [] (Some l)) with l
      end.
      rewrite at_key_snoc, decide_True by reflexivity.
      unfold texts. rewrite !fmap_app. f_equal.
      * rewrite Hgrow. apply texts_grow, Hreg.
      * rewrite !fmap_cons, Hcopy. reflexivity.
    + rewrite lookup_insert_ne by exact Hne.
      rewrite at_key_snoc, decide_False by exact Hne. rewrite app_nil_r.
      rewrite Hgrow. apply texts_grow, Hreg.
  - intros c'. unfold stream_of at 1. cbn [calls].
    destruct (decide (c = c')) as [<- | Hne].
    + rewrite lookup_insert_eq.
      match goal with
      | |- context [default call_new (Some ?l)] =>
          change (default call_new (Some l)) with l
      end.
      cbn [written]. unfold texts. rewrite !fmap_app. f_equal.
      * rewrite Hgrow. apply texts_grow, Hcalls.
      * rewrite Hgrow. apply texts_grow, Hreg.
    + rewrite lookup_insert_ne by exact Hne. rewrite app_nil_r.
      rewrite Hgrow. apply texts_grow, Hcalls.
Qed.

Lemma run_by_value (events : list (nat * RouteNote)) (sys : System)
    (seen : list RouteNote) (acc : nat -> list RouteNote) :
  reads_as pointKey sys seen acc ->
  exists sys',
    run pointKey sys events = Some sys'
    /\ reads_as pointKey sys' (seen ++ (snd <$> events))
         (fun c => acc c ++ replies_to pointKey c seen events).
Proof.
  revert sys seen acc.
  induction events as [| [c msg] rest IH]; intros sys seen acc Hinv.
  - exists sys. split; [reflexivity |]. simpl. rewrite app_nil_r.
    destruct Hinv as [Hreg Hcalls]. split; [exact Hreg |].
    intros c. rewrite app_nil_r. apply Hcalls.
  - destruct (deliver_by_value sys seen acc c msg Hinv) as (sys1 & Hd & Hinv1).
    destruct (IH sys1 _ _ Hinv1) as (sys' & Hrun & [Hreg Hcalls]).
    exists sys'. split; [cbn [run]; rewrite Hd; exact Hrun |].
    split.
    + intros key. rewrite (Hreg key). cbn [fmap list_fmap].
      rewrite <- app_assoc. reflexivity.
    + intros c'. rewrite (Hcalls c'). cbn [replies_to].
      rewrite <- app_assoc. reflexivity.
Qed.

Lemma idle_system_reads : reads_as pointKey idle_system [] (fun _ => []).
Proof. split; intros; reflexivity. Qed.

(** X13. Started empty, the registry holds under each key exactly the
    messages received with that key, each once, in the order they
    arrived, whatever calls they came from. *)
Theorem registry_holds_messages (events : list (nat * RouteNote)) :
  exists sys',
    run pointKey idle_system events = Some sys'
    /\ forall key,
         texts (objects (registry sys'))
           (default [] (route_notes (registry sys') !! key))
         = Some <$> at_key pointKey key (snd <$> events).
Proof.
  destruct (run_by_value events idle_system [] _ idle_system_reads)
    as (sys' & Hrun & Hreg & _).
  exists sys'. split; [exact Hrun | exact Hreg].
Qed.

(** X14. Started empty, what a call has been sent when the server has
    handled a sequence of messages is, for each of its own messages in
    turn, the earlier messages of all calls with the same key, oldest
    first. *)
Theorem routeChat_stream_by_value (events : list (nat * RouteNote)) :
  exists sys',
    run pointKey idle_system events = Some sys'
    /\ forall c,
         texts (objects (registry sys')) (written (stream_of sys' c))
         = Some <$> replies_to pointKey c [] events.
Proof.
  destruct (run_by_value events idle_system [] _ idle_system_reads)
    as (sys' & Hrun & _ & Hcalls).
  exists sys'. split; [exact Hrun | exact Hcalls].
Qed.

Lemma replies_to_origin (c : nat) (events : list (nat * RouteNote))
    (seen : list RouteNote) :
  Forall
    (fun note =>
       note ∈ seen ++ (snd <$> events)
       /\ exists msg,
            msg ∈ sent_by c events
            /\ pointKey (note_location note) = pointKey (note_location msg))
    (replies_to pointKey c seen events).
Proof.
  revert seen. induction events as [| [c' msg] rest IH]; intros seen.
  - constructor.
  - cbn [replies_to]. apply Forall_app. split.
    + destruct (decide (c' = c)) as [-> | Hne]; [| constructor].
      apply Forall_forall. intros note Hin.
      unfold at_key in Hin. apply list_elem_of_filter in Hin as [Hkey Hin].
      split.
      * apply elem_of_app. left. exact Hin.
      * exists msg. split; [| exact Hkey].
        unfold sent_by. rewrite filter_cons, decide_True by reflexivity.
        simpl. left.
    + eapply Forall_impl; [apply (IH (seen ++ [msg])) |].
      intros note [Hin (m & Hm & Hkey)]. split.
      * rewrite <- app_assoc in Hin. exact Hin.
      * exists m. split; [| exact Hkey].
        unfold sent_by in *. rewrite filter_cons.
        destruct (decide (fst (c', msg) = c)); [simpl; right |]; exact Hm.
Qed.

(** X15. A call is only sent notes that were received as messages, and
    only for keys of its own messages: nothing is made up and nothing is
    sent for a key the caller did not write to. *)
Theorem routeChat_replies_origin (events : list (nat * RouteNote)) (c : nat) :
  exists sys' replies,
    run pointKey idle_system events = Some sys'
    /\ texts (objects (registry sys')) (written (stream_of sys' c))
       = Some <$> replies
    /\ Forall
         (fun note =>
            note ∈ (snd <$> events)
            /\ exists msg,
                 msg ∈ sent_by c events
                 /\ pointKey (note_location note) = pointKey (note_location msg))
         replies.
Proof.
  destruct (run_by_value events idle_system [] _ idle_system_reads)
    as (sys' & Hrun & _ & Hcalls).
  exists sys', (replies_to pointKey c [] events).
  split; [exact Hrun |]. split; [apply Hcalls |].
  apply (replies_to_origin c events []).
Qed.

(** X16. Started empty, the registry stays well formed: whatever messages
    arrive, every address it holds is that of a note of the store. *)
Theorem registry_stays_wf (events : list (nat * RouteNote)) :
  exists sys',
    run pointKey idle_system events = Some sys'
    /\ Registry_wf (registry sys').
Proof.
  destruct (run_by_value events idle_system [] _ idle_system_reads)
    as (sys' & Hrun & Hreg & _).
  exists sys'. split; [exact Hrun |].
  intros key notes a Hnotes Ha.
  specialize (Hreg key). rewrite Hnotes in Hreg. cbn [default] in Hreg.
  unfold texts in Hreg.
  assert (Hin : JSON_stringify (objects (registry sys')) a
                ∈ Some <$> at_key pointKey key ([] ++ (snd <$> events))).
  { rewrite <- Hreg. apply list_elem_of_fmap. exists a. auto. }
  apply list_elem_of_fmap in Hin as (note & -> & _). eauto.
Qed.

End ByValue.

(** ** One call served alone *)

Lemma routeChat_messages_run (pointKey : Coordinate -> string) (c : nat)
    (msgs : list RouteNote) (sys sys' : System) :
  run pointKey sys ((fun msg => (c, msg)) <$> msgs) = Some sys' ->
  routeChat_messages pointKey (stream_of sys c) msgs (registry sys)
  = Some (stream_of sys' c, registry sys').
Proof.
  revert sys. induction msgs as [| msg rest IH]; intros sys Hrun.
  - simpl in Hrun. injection Hrun as <-. reflexivity.
  - rewrite fmap_cons in Hrun. cbn [run] in Hrun.
    destruct (deliver pointKey sys (c, msg)) as [sys1 |] eqn:Hd; [| discriminate].
    cbn [routeChat_messages]. unfold deliver in Hd.
    destruct (routeChat_receive pointKey (stream_of sys c) msg (registry sys))
      as [[call1 g1] |]; [| discriminate].
    injection Hd as <-. rewrite <- (IH _ Hrun). cbn [registry].
    unfold stream_of. cbn [calls]. rewrite lookup_insert_eq. reflexivity.
Qed.

(** X19. A call served alone by a server started empty is sent, for each
    of its messages in turn, its own earlier messages with the same key,
    and its stream is ended once the request stream ends. *)
Theorem routeChat_alone (pointKey : Coordinate -> string) (msgs : list RouteNote) :
  exists call g,
    routeChat pointKey msgs empty_registry = Some (call, g)
    /\ ended call = true
    /\ texts (objects g) (written call)
       = Some <$> replies_to pointKey 0 [] ((fun msg => (0%nat, msg)) <$> msgs).
Proof.
  destruct (run_by_value pointKey ((fun msg => (0%nat, msg)) <$> msgs)
              idle_system [] _ (idle_system_reads pointKey))
    as (sys' & Hrun & _ & Hcalls).
  pose proof (routeChat_messages_run pointKey 0 msgs idle_system sys' Hrun) as Hm.
  change (stream_of idle_system 0) with (@call_new addr) in Hm.
  change (registry idle_system) with empty_registry in Hm.
  exists (routeChat_end (stream_of sys' 0)), (registry sys').
  unfold routeChat. rewrite Hm. split; [reflexivity |]. split; [reflexivity |].
  apply (Hcalls 0%nat).
Qed.

(** * The further properties at sample inputs *)

(** X4 for a rectangle around [feature_A] inside a larger one. *)
Lemma listFeatures_monotone_witness :
  (Z.min (-5) 5 <= Z.min (-1) 1 /\ Z.max (-1) 1 <= Z.max (-5) 5
   /\ Z.min (-7) 7 <= Z.min 0 2 /\ Z.max 0 2 <= Z.max (-7) 7)
  /\ sublist
       (written (listFeatures [feature_A]
                   {| lo := {| latitude := 0; longitude := -1 |};
                      hi := {| latitude := 2; longitude := 1 |} |}))
       (written (listFeatures [feature_A]
                   {| lo := {| latitude := -7; longitude := -5 |};
                      hi := {| latitude := 7; longitude := 5 |} |})).
Proof.
  split; [lia |].
  apply (listFeatures_monotone [feature_A]
           {| lo := {| latitude := 0; longitude := -1 |};
              hi := {| latitude := 2; longitude := 1 |} |}
           {| lo := {| latitude := -7; longitude := -5 |};
              hi := {| latitude := 7; longitude := 5 |} |});
    simpl; lia.
Defined.

Lemma feature_A_named : named [feature_A] origin.
Proof. unfold named. simpl. discriminate. Defined.

(** X5 at the point of [feature_A]. *)
Lemma listFeatures_at_point_witness :
  named [feature_A] origin
  /\ head (written (listFeatures [feature_A] {| lo := origin; hi := origin |}))
     = Some (checkFeature [feature_A] origin).
Proof.
  split; [exact feature_A_named |].
  apply (listFeatures_at_point [feature_A] origin feature_A_named).
Defined.

(** X8 for a route of two segments: half a turn over the pole, which is
    20015086.8 metres, then the segment between the two nearly opposite
    points, which is NaN. *)
Lemma recordRoute_distance_nan_witness :
  (legs libm_Math [over_pole; north8; south8] = [half_equator; S754_nan]
   /\ In S754_nan (legs libm_Math [over_pole; north8; south8]))
  /\ distance
       (cb_value
          (recordRoute libm_Math [] (0, 0) (3, 0) [over_pole; north8; south8]))
     = 0.
Proof.
  assert (Hlegs : legs libm_Math [over_pole; north8; south8]
                  = [half_equator; S754_nan]) by (vm_compute; reflexivity).
  assert (H : In S754_nan (legs libm_Math [over_pole; north8; south8]))
    by (rewrite Hlegs; right; left; reflexivity).
  split; [split; assumption |].
  apply (recordRoute_distance_nan libm_Math [] (0, 0) (3, 0) _ H).
Defined.

(** X10 across a change of second: one whole second has passed. *)
Lemma recordRoute_elapsed_seconds_witness :
  (hrtime_wf (10, 999999999) /\ hrtime_wf (12, 3))
  /\ elapsed_time
       (cb_value (recordRoute equator_Math [] (10, 999999999) (12, 3) [origin]))
     = (nanoseconds (12, 3) - nanoseconds (10, 999999999)) / 1000000000.
Proof.
  assert (H0 : hrtime_wf (10, 999999999)) by (unfold hrtime_wf; simpl; lia).
  assert (H1 : hrtime_wf (12, 3)) by (unfold hrtime_wf; simpl; lia).
  split; [auto |].
  apply (recordRoute_elapsed_seconds equator_Math [] (10, 999999999) (12, 3)
           [origin] H0 H1).
Defined.

Lemma axes_Math_sin_odd (z : number) :
  Math_sin axes_Math (SFopp z) = SFopp (Math_sin axes_Math z).
Proof.
  destruct z as [[] | [] | | [] m e]; try reflexivity;
    unfold axes_Math, same_number, half_pi, zero;
    cbn [Math_sin SFopp negb Bool.eqb andb orb];
    destruct (Pos.eqb m 7074237752028440); cbn [andb];
    destruct (Z.eqb e (-52)); reflexivity.
Defined.

(** X17 along the equator, with [axes_Math] for the engine. *)
Lemma getDistance_sym_witness :
  (forall z, Math_sin axes_Math (SFopp z) = SFopp (Math_sin axes_Math z))
  /\ getDistance axes_Math origin antipode = getDistance axes_Math antipode origin.
Proof.
  split; [exact axes_Math_sin_odd |].
  apply (getDistance_sym axes_Math origin antipode axes_Math_sin_odd).
Defined.

(** X18 at the origin, with [axes_Math] for the engine. *)
Lemma getDistance_same_point_witness :
  (Math_sin axes_Math zero = zero
   /\ Math_atan2 axes_Math zero one = zero
   /\ is_finite (radians (latitude origin))
   /\ is_finite (radians (longitude origin))
   /\ is_finite (mul (Math_cos axes_Math (radians (latitude origin)))
                     (Math_cos axes_Math (radians (latitude origin)))))
  /\ getDistance axes_Math origin origin = zero.
Proof.
  assert (Hfin : is_finite (radians 0)) by (vm_compute; exact I).
  assert (Hcos : is_finite (mul (Math_cos axes_Math (radians 0))
                              (Math_cos axes_Math (radians 0))))
    by (vm_compute; exact I).
  split; [repeat split; assumption |].
  apply (getDistance_same_point axes_Math origin eq_refl eq_refl Hfin Hfin Hcos).
Defined.
